(** * A shallow embedding of [main.py]: task parsing, dispatch and registry

    The file follows the source top-down: the operation enumeration and the
    two dataclasses, the [TaskManager] registry, the [TaskExecutor] methods
    [parse_task_description], [count_weekdays] and [execute], and the two
    Flask views [handle_task] and [read_file].

    Python strings are modelled as [string]; the character classes below
    (case, white space, digits) are the ASCII ones, and a character above
    127 is treated as caseless and not white space.  Python knows letters
    and white space above 127: where a statement turns on the class of a
    character of its input, it asks for that character to be ASCII. *)

From Stdlib Require Import ZArith Ascii String List Lia.
From Stdlib Require Import Sorted.
From stdpp Require Import base option list strings gmap pretty.

Local Open Scope Z_scope.

(** ** Exceptions and results *)

(** The exception classes the code raises or catches.  [msg] is [str(e)]. *)
Inductive exn_class :=
  | HTTPError | ConnectionError | JSONDecodeError
  | KeyError | IndexError | ValueError | TypeError | RuntimeError
  | AttributeError | FileNotFoundError | IsADirectoryError
  | OtherException.

Record exn := Exn { cls : exn_class; msg : string }.

Inductive Res (A : Type) :=
  | Ok (a : A)
  | Raise (e : exn).
Arguments Ok {A} a.
Arguments Raise {A} e.

Global Instance exn_class_eq_dec : EqDecision exn_class.
Proof. solve_decision. Defined.

(** ** The command schema (lines 28-51) *)

Inductive OperationType :=
  | RUN_SCRIPT
  | FORMAT_MARKDOWN
  | COUNT_WEEKDAYS
  | SORT_JSON
  | EXTRACT_RECENT_LOGS
  | CREATE_MARKDOWN_INDEX
  | EXTRACT_EMAIL_SENDER
  | EXTRACT_CREDIT_CARD
  | CALCULATE_GOLD_SALES
  | FIND_SIMILAR_COMMENTS.

Global Instance OperationType_eq_dec : EqDecision OperationType.
Proof. solve_decision. Defined.

(** The members in definition order: [list(OperationType)]. *)
Definition OperationType_members : list OperationType :=
  [ RUN_SCRIPT; FORMAT_MARKDOWN; COUNT_WEEKDAYS; SORT_JSON;
    EXTRACT_RECENT_LOGS; CREATE_MARKDOWN_INDEX; EXTRACT_EMAIL_SENDER;
    EXTRACT_CREDIT_CARD; CALCULATE_GOLD_SALES; FIND_SIMILAR_COMMENTS ].

(** [op.value] *)
Definition value (op : OperationType) : string :=
  match op with
  | RUN_SCRIPT => "run_script"
  | FORMAT_MARKDOWN => "format_markdown"
  | COUNT_WEEKDAYS => "count_weekdays"
  | SORT_JSON => "sort_json"
  | EXTRACT_RECENT_LOGS => "extract_recent_logs"
  | CREATE_MARKDOWN_INDEX => "create_markdown_index"
  | EXTRACT_EMAIL_SENDER => "extract_email_sender"
  | EXTRACT_CREDIT_CARD => "extract_credit_card"
  | CALCULATE_GOLD_SALES => "calculate_gold_sales"
  | FIND_SIMILAR_COMMENTS => "find_similar_comments"
  end.

(** [op.name] *)
Definition name (op : OperationType) : string :=
  match op with
  | RUN_SCRIPT => "RUN_SCRIPT"
  | FORMAT_MARKDOWN => "FORMAT_MARKDOWN"
  | COUNT_WEEKDAYS => "COUNT_WEEKDAYS"
  | SORT_JSON => "SORT_JSON"
  | EXTRACT_RECENT_LOGS => "EXTRACT_RECENT_LOGS"
  | CREATE_MARKDOWN_INDEX => "CREATE_MARKDOWN_INDEX"
  | EXTRACT_EMAIL_SENDER => "EXTRACT_EMAIL_SENDER"
  | EXTRACT_CREDIT_CARD => "EXTRACT_CREDIT_CARD"
  | CALCULATE_GOLD_SALES => "CALCULATE_GOLD_SALES"
  | FIND_SIMILAR_COMMENTS => "FIND_SIMILAR_COMMENTS"
  end.

(** [str(op)], which is what an f-string prints for a plain [Enum]. *)
Definition str_OperationType (op : OperationType) : string :=
  "OperationType." +:+ name op.

(** [OperationType(s)]: look a member up by value; the enumeration raises
    [ValueError] when no member has that value. *)
Definition OperationType_of_value (s : string) : Res OperationType :=
  match List.find (fun op => bool_decide (value op = s)) OperationType_members with
  | Some op => Ok op
  | None => Raise (Exn ValueError ("'" +:+ s +:+ "' is not a valid OperationType"))
  end.

Record TaskParameters := mkTaskParameters {
  weekday : option string;
  script_url : option string;
  llm_instruction : option string
}.

Record ParsedTask := mkParsedTask {
  input_files : list string;
  operation : OperationType;
  parameters : TaskParameters;
  output_file : string
}.

(** ** The task registry (lines 52-69) *)

(** One entry of [TaskManager.tasks]: the dict with keys ['status'],
    ['output_path'] and ['error']. *)
Record TaskRecord := mkTaskRecord {
  status : string;
  output_path : string;
  error : option string
}.

Module TaskManager.

(** [self.tasks[task_id] = {'status': 'pending', ...}] *)
Definition create_task (task_id output_path : string)
    (tasks : gmap string TaskRecord) : gmap string TaskRecord :=
  <[task_id := mkTaskRecord "pending" output_path None]> tasks.

(** [if task_id in self.tasks:] assign ['status'] and ['error'] *)
Definition update_task (task_id status : string) (error : option string)
    (tasks : gmap string TaskRecord) : gmap string TaskRecord :=
  match tasks !! task_id with
  | Some r => <[task_id := mkTaskRecord status (output_path r) error]> tasks
  | None => tasks
  end.

(** [self.tasks.get(task_id, None)] *)
Definition get_task (task_id : string)
    (tasks : gmap string TaskRecord) : option TaskRecord :=
  tasks !! task_id.

End TaskManager.

(** ** Python string methods used by the code *)

Module str.

Definition code (c : ascii) : N := N_of_ascii c.

Definition isupper (c : ascii) : bool := ((65 <=? code c) && (code c <=? 90))%N.
Definition islower (c : ascii) : bool := ((97 <=? code c) && (code c <=? 122))%N.
Definition isdigit (c : ascii) : bool := ((48 <=? code c) && (code c <=? 57))%N.
Definition isalpha (c : ascii) : bool := isupper c || islower c.

(** [c.isspace()]: tab, line feed, vertical tab, form feed, carriage
    return, the four separators 28-31 and the space. *)
Definition isspace (c : ascii) : bool :=
  (((9 <=? code c) && (code c <=? 13)) || ((28 <=? code c) && (code c <=? 32)))%N.

Definition to_lower (c : ascii) : ascii :=
  if isupper c then ascii_of_N (code c + 32) else c.
Definition to_upper (c : ascii) : ascii :=
  if islower c then ascii_of_N (code c - 32) else c.

(** [s.lower()] *)
Fixpoint lower (s : string) : string :=
  match s with
  | EmptyString => EmptyString
  | String c r => String (to_lower c) (lower r)
  end.

(** [s.capitalize()]: first character upper case, the rest lower case. *)
Definition capitalize (s : string) : string :=
  match s with
  | EmptyString => EmptyString
  | String c r => String (to_upper c) (lower r)
  end.

(** [s.title()]: in every run of letters the first is made upper case
    and the others lower case.  The code never calls it; it is the normal
    form the specification names, kept here to be compared with
    [capitalize]. *)
Fixpoint title_from (previous_is_cased : bool) (s : string) : string :=
  match s with
  | EmptyString => EmptyString
  | String c r =>
      if islower c then
        String (if previous_is_cased then c else to_upper c) (title_from true r)
      else if isupper c then
        String (if previous_is_cased then to_lower c else c) (title_from true r)
      else String c (title_from false r)
  end.

Definition title (s : string) : string := title_from false s.

Fixpoint dropwhile (p : ascii -> bool) (l : list ascii) : list ascii :=
  match l with
  | [] => []
  | c :: r => if p c then dropwhile p r else l
  end.

(** [s.strip()] *)
Definition strip (s : string) : string :=
  string_of_list_ascii
    (rev (dropwhile isspace (rev (dropwhile isspace (list_ascii_of_string s))))).

(** The lines a text-mode file object yields when iterated: each one ends
    with its line feed, except a last line that has none.  The content is
    the text as read, line ends already translated to line feeds. *)
Fixpoint readlines_from (cur : list ascii) (s : string) : list string :=
  match s with
  | EmptyString =>
      match cur with
      | [] => []
      | _ => [string_of_list_ascii (rev cur)]
      end
  | String c r =>
      if Ascii.eqb c "010"
      then string_of_list_ascii (rev (c :: cur)) :: readlines_from [] r
      else readlines_from (c :: cur) r
  end.

Definition readlines (content : string) : list string :=
  readlines_from [] content.

End str.

(** ** [os.path] (posixpath) *)

Module posixpath.

Definition sep : ascii := "/".
Definition is_sep (c : ascii) : bool := Ascii.eqb c sep.
Definition not_sep (c : ascii) : bool := negb (is_sep c).

(** [dirname(p)]: [i = p.rfind('/') + 1; head = p[:i]]; a head that is
    not made of slashes only loses its trailing slashes. *)
Definition dirname (p : string) : string :=
  let rhead := str.dropwhile not_sep (rev (list_ascii_of_string p)) in
  match str.dropwhile is_sep rhead with
  | [] => string_of_list_ascii (rev rhead)
  | rstripped => string_of_list_ascii (rev rstripped)
  end.

Definition startswith_sep (s : string) : bool :=
  match s with
  | String c _ => is_sep c
  | EmptyString => false
  end.

Definition endswith_sep (s : string) : bool :=
  match rev (list_ascii_of_string s) with
  | c :: _ => is_sep c
  | [] => false
  end.

(** [join(a, b)] with one component after the base. *)
Definition join (a b : string) : string :=
  if startswith_sep b then b
  else if bool_decide (a = "") || endswith_sep a then a +:+ b
  else a +:+ "/" +:+ b.

End posixpath.

(** ** [datetime]: the proleptic Gregorian calendar, [strptime], [strftime] *)

Module datetime.

Record t := mk {
  year : Z; month : Z; day : Z;
  hour : Z; minute : Z; second : Z
}.

Definition is_leap (y : Z) : bool :=
  (y mod 4 =? 0) && (negb (y mod 100 =? 0) || (y mod 400 =? 0)).

Definition DAYS_IN_MONTH : list Z :=
  [-1; 31; 28; 31; 30; 31; 30; 31; 31; 30; 31; 30; 31].
Definition DAYS_BEFORE_MONTH : list Z :=
  [-1; 0; 31; 59; 90; 120; 151; 181; 212; 243; 273; 304; 334].

Definition days_before_year (y : Z) : Z :=
  let y := y - 1 in y * 365 + y / 4 - y / 100 + y / 400.

Definition days_in_month (y m : Z) : Z :=
  if (m =? 2) && is_leap y then 29 else nth (Z.to_nat m) DAYS_IN_MONTH 0.

Definition days_before_month (y m : Z) : Z :=
  nth (Z.to_nat m) DAYS_BEFORE_MONTH 0 + (if (2 <? m) && is_leap y then 1 else 0).

Definition ymd2ord (y m d : Z) : Z :=
  days_before_year y + days_before_month y m + d.

Definition toordinal (dt : t) : Z := ymd2ord (year dt) (month dt) (day dt).

(** Monday is 0. *)
Definition weekday (dt : t) : Z := (toordinal dt + 6) mod 7.

Definition day_names : list string :=
  [ "Monday"; "Tuesday"; "Wednesday"; "Thursday"; "Friday"; "Saturday"; "Sunday" ]%string.

(** [dt.strftime('%A')] in the C locale. *)
Definition strftime_A (dt : t) : string :=
  nth (Z.to_nat (weekday dt)) day_names ""%string.

(** The field checks of the [datetime] constructor. *)
Definition check_fields (dt : t) : bool :=
  (1 <=? year dt) && (year dt <=? 9999) &&
  (1 <=? month dt) && (month dt <=? 12) &&
  (1 <=? day dt) && (day dt <=? days_in_month (year dt) (month dt)) &&
  (0 <=? hour dt) && (hour dt <=? 23) &&
  (0 <=? minute dt) && (minute dt <=? 59) &&
  (0 <=? second dt) && (second dt <=? 59).

(** *** [strptime]

    [_strptime] turns the format into a regular expression (a run of
    white space becomes [\s+], a directive becomes a group of
    alternatives, anything else stands for itself), compiles it with
    [IGNORECASE], matches it at the start of the text and rejects text
    left over.  The matcher below tries the alternatives in the order the
    expression lists them and backtracks as the [re] engine does. *)

Inductive tok :=
  | TLit (c : ascii)
  | TSpace
  | TDir (d : ascii).

Fixpoint compile (fmt : list ascii) (in_space : bool) : option (list tok) :=
  match fmt with
  | [] => Some []
  | c :: r =>
      if str.isspace c then
        if in_space then compile r true
        else cons TSpace <$> compile r true
      else if Ascii.eqb c "%" then
        match r with
        | d :: r' => cons (TDir d) <$> compile r' false
        | [] => None
        end
      else cons (TLit c) <$> compile r false
  end.

Definition exactly (c : ascii) : ascii -> bool := fun x => Ascii.eqb x c.
Definition between (lo hi : ascii) : ascii -> bool :=
  fun x => ((str.code lo <=? str.code x) && (str.code x <=? str.code hi))%N.
Definition digit : ascii -> bool := str.isdigit.
Definition nocase (c : ascii) : ascii -> bool :=
  fun x => Ascii.eqb (str.to_lower x) (str.to_lower c).

(** One alternative: a sequence of character classes. *)
Fixpoint match_seq (cs : list (ascii -> bool)) (s : list ascii)
    : option (list ascii * list ascii) :=
  match cs with
  | [] => Some ([], s)
  | p :: cs' =>
      match s with
      | x :: s' =>
          if p x then
            match match_seq cs' s' with
            | Some (m, rest) => Some (x :: m, rest)
            | None => None
            end
          else None
      | [] => None
      end
  end.

Definition word (w : string) : list (ascii -> bool) :=
  map nocase (list_ascii_of_string w).

(** [int(text)] for a group of digits with an optional leading space. *)
Definition int_of (m : list ascii) : Z :=
  fold_left (fun acc c => if str.isdigit c then acc * 10 + (Z.of_N (str.code c) - 48) else acc) m 0.

(** [LocaleTime.a_month]: the lower-cased abbreviations, with an empty
    entry at index 0. *)
Definition a_month : list string :=
  [ ""; "jan"; "feb"; "mar"; "apr"; "may"; "jun";
    "jul"; "aug"; "sep"; "oct"; "nov"; "dec" ]%string.

(** [l.index(w)] for a [w] that occurs in [l]. *)
Fixpoint index (w : string) (l : list string) : Z :=
  match l with
  | [] => 0
  | x :: r => if bool_decide (x = w) then 0 else 1 + index w r
  end.

(** The alternatives of a directive, in the order of its group. *)
Definition alternatives (d : ascii) : option (list (list (ascii -> bool))) :=
  if Ascii.eqb d "Y" then Some [ [digit; digit; digit; digit] ]
  else if Ascii.eqb d "m" then
    Some [ [exactly "1"; between "0" "2"]; [exactly "0"; between "1" "9"]; [between "1" "9"] ]
  else if Ascii.eqb d "d" then
    Some [ [exactly "3"; between "0" "1"]; [between "1" "2"; digit];
           [exactly "0"; between "1" "9"]; [between "1" "9"]; [exactly " "; between "1" "9"] ]
  else if Ascii.eqb d "H" then
    Some [ [exactly "2"; between "0" "3"]; [between "0" "1"; digit]; [digit] ]
  else if Ascii.eqb d "M" then
    Some [ [between "0" "5"; digit]; [digit] ]
  else if Ascii.eqb d "S" then
    Some [ [exactly "6"; between "0" "1"]; [between "0" "5"; digit]; [digit] ]
  else if Ascii.eqb d "b" then Some (map word (tail a_month))
  else None.

(** What a matched group stores. *)
Definition store (d : ascii) (m : list ascii) (dt : t) : t :=
  if Ascii.eqb d "Y" then mk (int_of m) (month dt) (day dt) (hour dt) (minute dt) (second dt)
  else if Ascii.eqb d "m" then mk (year dt) (int_of m) (day dt) (hour dt) (minute dt) (second dt)
  else if Ascii.eqb d "d" then mk (year dt) (month dt) (int_of m) (hour dt) (minute dt) (second dt)
  else if Ascii.eqb d "H" then mk (year dt) (month dt) (day dt) (int_of m) (minute dt) (second dt)
  else if Ascii.eqb d "M" then mk (year dt) (month dt) (day dt) (hour dt) (int_of m) (second dt)
  else if Ascii.eqb d "S" then mk (year dt) (month dt) (day dt) (hour dt) (minute dt) (int_of m)
  else if Ascii.eqb d "b" then
    let found := str.lower (string_of_list_ascii m) in
    mk (year dt) (index found a_month) (day dt) (hour dt) (minute dt) (second dt)
  else dt.

Fixpoint first_some {A B : Type} (f : A -> option B) (l : list A) : option B :=
  match l with
  | [] => None
  | x :: r => match f x with Some y => Some y | None => first_some f r end
  end.

(** The ways [\s+] can match at the start of [s], longest first. *)
Fixpoint space_splits (s : list ascii) : list (list ascii) :=
  match s with
  | x :: s' => if str.isspace x then space_splits s' ++ [s'] else []
  | [] => []
  end.

Fixpoint match_toks (ts : list tok) (s : list ascii) (dt : t)
    : option (t * list ascii) :=
  match ts with
  | [] => Some (dt, s)
  | TLit c :: ts' =>
      match s with
      | x :: s' => if nocase c x then match_toks ts' s' dt else None
      | [] => None
      end
  | TSpace :: ts' => first_some (fun s' => match_toks ts' s' dt) (space_splits s)
  | TDir d :: ts' =>
      match alternatives d with
      | Some alts =>
          first_some
            (fun alt =>
               match match_seq alt s with
               | Some (m, s') => match_toks ts' s' (store d m dt)
               | None => None
               end)
            alts
      | None => None
      end
  end.

(** [datetime.strptime(text, fmt)]; [None] stands for [ValueError]. *)
Definition strptime (text fmt : string) : option t :=
  match compile (list_ascii_of_string fmt) false with
  | Some ts =>
      match match_toks ts (list_ascii_of_string text) (mk 1900 1 1 0 0 0) with
      | Some (dt, []) => if check_fields dt then Some dt else None
      | _ => None
      end
  | None => None
  end.

End datetime.

(** ** The world the handlers act on *)

(** The bound methods that [handler_map] holds. *)
Inductive Handler :=
  | self_format_markdown
  | self_count_weekdays
  | self_sort_contacts
  | self_extract_recent_logs
  | self_create_markdown_index
  | self_extract_email_sender
  | self_extract_credit_card
  | self_calculate_gold_sales
  | self_find_similar_comments.

Global Instance Handler_eq_dec : EqDecision Handler.
Proof. solve_decision. Defined.

(** The file system is a map from a path, as written, to what is there.
    The directory a written file goes to is taken to exist, and a file
    holds text that decodes: of the ways [open] and [read] can fail, the
    model has the missing file and the directory. *)
Inductive node :=
  | File (content : string)
  | Directory.

(** What the code does to the outside: files it opens, handlers it calls. *)
Inductive event :=
  | Open (path mode : string)
  | Call (h : Handler) (args : list string).

Record World := mkWorld {
  fs : gmap string node;
  trace : list event
}.

(** Computations that read and change the world and may raise. *)
Definition M (A : Type) : Type := World -> Res A * World.

Definition ret {A} (a : A) : M A := fun w => (Ok a, w).
Definition raise {A} (e : exn) : M A := fun w => (Raise e, w).
Definition bind {A B} (m : M A) (k : A -> M B) : M B :=
  fun w =>
    match m w with
    | (Ok a, w') => k a w'
    | (Raise e, w') => (Raise e, w')
    end.
Definition lift {A} (r : Res A) : M A := fun w => (r, w).

Notation "x <- m ; k" := (bind m (fun x => k))
  (at level 20, m at level 100, k at level 200, only parsing).

Definition res_bind {A B} (r : Res A) (k : A -> Res B) : Res B :=
  match r with
  | Ok a => k a
  | Raise e => Raise e
  end.

Notation "x <~ r ; k" := (res_bind r (fun x => k))
  (at level 20, r at level 100, k at level 200, only parsing).

Definition log (e : event) : M unit :=
  fun w => (Ok tt, mkWorld (fs w) (trace w ++ [e])).

(** [repr(s)] of a string without quotes or escapes. *)
Definition repr (s : string) : string := "'" +:+ s +:+ "'".

(** [open(path, 'r')] followed by reading the text. *)
Definition open_read (path : string) : M string :=
  _ <- log (Open path "r");
  fun w =>
    match fs w !! path with
    | Some (File content) => (Ok content, w)
    | Some Directory =>
        (Raise (Exn IsADirectoryError ("[Errno 21] Is a directory: " +:+ repr path)), w)
    | None =>
        (Raise (Exn FileNotFoundError ("[Errno 2] No such file or directory: " +:+ repr path)), w)
    end.

(** [open(path, 'w')] followed by one [write]. *)
Definition open_write (path content : string) : M unit :=
  _ <- log (Open path "w");
  fun w =>
    match fs w !! path with
    | Some Directory =>
        (Raise (Exn IsADirectoryError ("[Errno 21] Is a directory: " +:+ repr path)), w)
    | _ => (Ok tt, mkWorld (<[path := File content]> (fs w)) (trace w))
    end.

(** ** What stands outside the program *)

(** The keyword arguments [json.loads] hands back for the function call.
    The members have the types the schema names; nothing else the schema
    asks for (required keys, the enumeration, the parameter names) is
    taken for granted. *)
Record Arguments := mkArguments {
  arg_input_files : option (list string);
  arg_operation : option string;
  arg_parameters : option (list (string * string));
  arg_output_file : option string
}.

(** Why lines 135-139 can fail before the arguments are looked at:
    [response.json()] or [json.loads] meets text that is not JSON, a
    subscript on the way down to ['arguments'] finds no such key, the list
    of choices is empty, a subscript meets a value that cannot be
    subscripted that way, or the decoded arguments are no JSON object and
    have no [get]. *)
Inductive DecodeFailure :=
  | NotJson (m : string)
  | MissingKey (k : string)
  | EmptyChoices
  | WrongShape (m : string)
  | NotAnObject (m : string).

Definition exn_of_failure (f : DecodeFailure) : exn :=
  match f with
  | NotJson m => Exn JSONDecodeError m
  | MissingKey k => Exn KeyError (repr k)
  | EmptyChoices => Exn IndexError "list index out of range"
  | WrongShape m => Exn TypeError m
  | NotAnObject m => Exn AttributeError m
  end.

(** The outcomes of the call to the model service. *)
Inductive Upstream :=
  | ConnectionFailed (m : string)
  | StatusError (text : string)
  | Undecodable (f : DecodeFailure)
  | Decoded (arguments : Arguments).

(** The environment: the process environment, the model service, and the
    file transformers other than [count_weekdays], each taken by what it
    does to the files and whether it raises. *)
Record Env := mkEnv {
  getenv_API_TOKEN : option string;
  requests_post : string -> string -> option string -> Upstream;
  transformer : Handler -> string -> string -> gmap string node -> Res unit * gmap string node
}.

(** ** [TaskExecutor] (lines 73-375) *)

(** [x or y] and [not x] on an optional string: [None] and the empty
    string are false. *)
Definition or_else (x : option string) (y : string) : string :=
  match x with
  | Some s => if bool_decide (s = "") then y else s
  | None => y
  end.

Definition truthy (s : string) : bool := negb (bool_decide (s = "")).

(** A dict literal keyed by operations, and [d.get(k)]. *)
Fixpoint dict_get {V : Type} (d : list (OperationType * V)) (k : OperationType) : option V :=
  match d with
  | [] => None
  | (k', v) :: r => if bool_decide (k' = k) then Some v else dict_get r k
  end.

Module TaskExecutor.

Record t := mk {
  api_token : string;
  base_url : string
}.

Section WithEnv.

Variable env : Env.

(** [__init__] *)
Definition init (token : option string) : Res t :=
  let api_token :=
    match token with
    | Some s => if truthy s then Some s else getenv_API_TOKEN env
    | None => getenv_API_TOKEN env
    end in
  match api_token with
  | Some s =>
      if truthy s then Ok (mk s "https://aiproxy.sanand.workers.dev/openai/v1/")
      else Raise (Exn ValueError "Missing AIPROXY_TOKEN. Get it from https://aiproxy.sanand.workers.dev/")
  | None =>
      Raise (Exn ValueError "Missing AIPROXY_TOKEN. Get it from https://aiproxy.sanand.workers.dev/")
  end.

(** [arguments[key]] *)
Definition getitem {A} (key : string) (member : option A) : Res A :=
  match member with
  | Some v => Ok v
  | None => Raise (Exn KeyError (repr key))
  end.

(** [TaskParameters] called with the items of a dict as keyword
    arguments: a keyword the dataclass does not declare raises
    [TypeError]. *)
Fixpoint TaskParameters_init (kwargs : list (string * string)) (acc : TaskParameters)
    : Res TaskParameters :=
  match kwargs with
  | [] => Ok acc
  | (k, v) :: r =>
      if bool_decide (k = "weekday") then
        TaskParameters_init r (mkTaskParameters (Some v) (script_url acc) (llm_instruction acc))
      else if bool_decide (k = "script_url") then
        TaskParameters_init r (mkTaskParameters (weekday acc) (Some v) (llm_instruction acc))
      else if bool_decide (k = "llm_instruction") then
        TaskParameters_init r (mkTaskParameters (weekday acc) (script_url acc) (Some v))
      else
        Raise (Exn TypeError
                 ("TaskParameters.__init__() got an unexpected keyword argument " +:+ repr k))
  end.

(** Lines 138-143: the [ParsedTask(...)] call, its keyword arguments
    evaluated in the order they are written. *)
Definition build (arguments : Arguments) : Res ParsedTask :=
  let input_files := default [] (arg_input_files arguments) in
  v <~ getitem "operation" (arg_operation arguments);
  operation <~ OperationType_of_value v;
  parameters <~ TaskParameters_init (default [] (arg_parameters arguments))
                  (mkTaskParameters None None None);
  output_file <~ getitem "output_file" (arg_output_file arguments);
  Ok (mkParsedTask input_files operation parameters output_file).

(** [except KeyError as e: raise RuntimeError(...)] *)
Definition except_KeyError {A} (r : Res A) : Res A :=
  match r with
  | Ok a => Ok a
  | Raise e =>
      if bool_decide (cls e = KeyError)
      then Raise (Exn RuntimeError ("Malformed API response: " +:+ msg e))
      else Raise e
  end.

(** Lines 84-148.  [requests.post] failing is not caught; the
    [HTTPError] of [raise_for_status] and any [KeyError] become
    [RuntimeError]; every other exception leaves as it is. *)
Definition parse_task_description (self : t) (task_description : option string)
    : Res ParsedTask :=
  match requests_post env (base_url self +:+ "chat/completions") (api_token self)
          task_description with
  | ConnectionFailed m => Raise (Exn ConnectionError m)
  | StatusError text => Raise (Exn RuntimeError ("AI Proxy error: " +:+ text))
  | Undecodable f => except_KeyError (Raise (exn_of_failure f))
  | Decoded arguments => except_KeyError (build arguments)
  end.

Definition formats : list string :=
  [ "%Y-%m-%d"; "%d-%b-%Y"; "%b %d, %Y"; "%Y/%m/%d %H:%M:%S" ].

(** Lines 174-186: the loop over the formats for one line; the first
    format that parses ends it. *)
Fixpoint count_line (line weekday : string) (fmts : list string) (count : nat) : nat :=
  match fmts with
  | [] => count
  | fmt :: rest =>
      match datetime.strptime (str.strip line) fmt with
      | Some date =>
          if bool_decide (datetime.strftime_A date = weekday) then S count else count
      | None => count_line line weekday rest count
      end
  end.

(** Lines 165-191. *)
Definition count_weekdays (input_file weekday output_file : string) : M unit :=
  let weekday := str.capitalize weekday in
  content <- open_read input_file;
  let count := fold_left (fun count line => count_line line weekday formats count)
                 (str.readlines content) 0%nat in
  open_write output_file (pretty count).

(** Calling [handler] on [args]: [count_weekdays] is the method above, the other
    eight are the environment's; a call with the wrong number of
    arguments raises [TypeError]. *)
Definition call (handler : Handler) (args : list string) : M unit :=
  _ <- log (Call handler args);
  match handler, args with
  | self_count_weekdays, [input_file; weekday; output_file] =>
      count_weekdays input_file weekday output_file
  | self_count_weekdays, _ => raise (Exn TypeError "count_weekdays() takes 3 positional arguments")
  | _, [input; output_file] =>
      fun w =>
        let '(r, files) := transformer env handler input output_file (fs w) in
        (r, mkWorld files (trace w))
  | _, _ => raise (Exn TypeError "handler takes 2 positional arguments")
  end.

Definition handler_map : list (OperationType * Handler) :=
  [ (FORMAT_MARKDOWN, self_format_markdown);
    (COUNT_WEEKDAYS, self_count_weekdays);
    (SORT_JSON, self_sort_contacts);
    (EXTRACT_RECENT_LOGS, self_extract_recent_logs);
    (CREATE_MARKDOWN_INDEX, self_create_markdown_index);
    (EXTRACT_EMAIL_SENDER, self_extract_email_sender);
    (EXTRACT_CREDIT_CARD, self_extract_credit_card);
    (CALCULATE_GOLD_SALES, self_calculate_gold_sales);
    (FIND_SIMILAR_COMMENTS, self_find_similar_comments) ].

Definition task_data_dirs : list (OperationType * string) :=
  [ (FORMAT_MARKDOWN, "./data/docs/agent/director.md");
    (COUNT_WEEKDAYS, "./data/dates");
    (SORT_JSON, "./data/contacts.json");
    (EXTRACT_RECENT_LOGS, "/data/logs");
    (CREATE_MARKDOWN_INDEX, "/data/docs");
    (EXTRACT_EMAIL_SENDER, "/data/emails");
    (EXTRACT_CREDIT_CARD, "/data/images");
    (CALCULATE_GOLD_SALES, "/data/databases");
    (FIND_SIMILAR_COMMENTS, "/data/comments") ].

(** Line 365. *)
Definition input_path_of (parsed : ParsedTask) : string :=
  match input_files parsed with
  | first :: _ => first
  | [] => default "" (dict_get task_data_dirs (operation parsed))
  end.

(** Lines 331-375. *)
Definition execute (self : t) (task_description : option string) : M unit :=
  parsed <- lift (parse_task_description self task_description);
  match dict_get handler_map (operation parsed) with
  | None =>
      raise (Exn ValueError
               ("Unsupported operation: " +:+ str_OperationType (operation parsed)))
  | Some handler =>
      let input_path := input_path_of parsed in
      if negb (truthy input_path) then
        raise (Exn ValueError
                 ("No valid input path found for operation: "
                  +:+ str_OperationType (operation parsed)))
      else if bool_decide (operation parsed = COUNT_WEEKDAYS) then
        call handler [ input_path;
                       or_else (weekday (parameters parsed)) "Wednesday";
                       output_file parsed ]
      else if bool_decide (operation parsed = EXTRACT_RECENT_LOGS)
              || bool_decide (operation parsed = CREATE_MARKDOWN_INDEX) then
        call handler [ posixpath.dirname input_path; output_file parsed ]
      else
        call handler [ input_path; output_file parsed ]
  end.

(** [executor.execute_parsed]: the class has no attribute of that
    name, so line 396 raises before anything is called. *)
Definition execute_parsed : M unit :=
  raise (Exn AttributeError "'TaskExecutor' object has no attribute 'execute_parsed'").

End WithEnv.

End TaskExecutor.

(** ** The Flask views (lines 377-419) *)

(** [jsonify(body), code] *)
Record Response := mkResponse {
  status_code : Z;
  json : list (string * string)
}.

(** The process state: the world, [task_manager.tasks], and the task ids
    whose background thread has been started. *)
Record State := mkState {
  world : World;
  tasks : gmap string TaskRecord;
  started : list string
}.

Definition RESULTS_DIR : string := "./task_results".

Section Views.

Variable env : Env.

(** Lines 377-402.  [task_desc] is [data.get('task_description')] and
    [uuid] the value of [uuid.uuid4()].  A view that raises is answered
    by Flask with a 500. *)
Definition handle_task (task_desc : option string) (uuid : string) (st : State)
    : Res Response * State :=
  let task_id := uuid in
  let output_path := posixpath.join RESULTS_DIR (task_id +:+ ".out") in
  match TaskExecutor.init env None with
  | Raise e => (Raise e, st)
  | Ok executor =>
      match TaskExecutor.execute env executor task_desc (world st) with
      | (Raise e, w) =>
          (Ok (mkResponse 400 [("error", msg e)]), mkState w (tasks st) (started st))
      | (Ok _, w) =>
          (Ok (mkResponse 202 [("task_id", task_id)]),
           mkState w (TaskManager.create_task task_id output_path (tasks st))
             (started st ++ [task_id]))
      end
  end.

(** Lines 394-399: what the thread started for [task_id] does when it
    runs. *)
Definition background_task (task_id : string) (st : State) : State :=
  match TaskExecutor.execute_parsed (world st) with
  | (Ok _, w) =>
      mkState w (TaskManager.update_task task_id "completed" None (tasks st)) (started st)
  | (Raise e, w) =>
      mkState w (TaskManager.update_task task_id "error" (Some (msg e)) (tasks st))
        (started st)
  end.

(** Lines 405-419.  [path] is [request.args.get('path')]. *)
Definition read_file (path : option string) (w : World) : Response * World :=
  if negb (truthy (default "" path)) then
    (mkResponse 400 [("error", "Missing 'path' parameter")], w)
  else
    match open_read (default "" path) w with
    | (Ok content, w') => (mkResponse 200 [("content", content)], w')
    | (Raise e, w') =>
        if bool_decide (cls e = FileNotFoundError)
        then (mkResponse 404 [("error", "File not found")], w')
        else (mkResponse 500 [("error", msg e)], w')
    end.

End Views.

(** ** Example inputs *)

Module Examples.

(** Transformers that succeed and touch no file. *)
Definition quiet : Handler -> string -> string -> gmap string node -> Res unit * gmap string node :=
  fun _ _ _ files => (Ok tt, files).

(** An environment with a token whose model service always answers
    [reply]. *)
Definition env_with (reply : Upstream) : Env :=
  mkEnv (Some "token") (fun _ _ _ => reply) quiet.

Definition executor : TaskExecutor.t :=
  TaskExecutor.mk "token" "https://aiproxy.sanand.workers.dev/openai/v1/".

Definition no_parameters : TaskParameters := mkTaskParameters None None None.

Definition empty_world : World := mkWorld ∅ [].
Definition empty_state : State := mkState empty_world ∅ [].

(** A registry holding one finished task. *)
Definition finished : gmap string TaskRecord :=
  TaskManager.update_task "t1" "completed" None
    (TaskManager.create_task "t1" "./task_results/t1.out" ∅).

(** The three dates of the weekday scenario, one per line. *)
Definition dates : string :=
  "2024-01-03" +:+ String "010" ("2024-01-10" +:+ String "010" ("2024-01-11" +:+ String "010" "")).

Definition dates_world : World :=
  mkWorld {[ "dates.txt" := File dates ]} [].

(** Count Wednesdays in [dates.txt], no weekday given. *)
Definition count_request : Arguments :=
  mkArguments (Some ["dates.txt"]) (Some "count_weekdays") None (Some "out.txt").

(** Count weekdays in a file that is not there. *)
Definition missing_file_request : Arguments :=
  mkArguments (Some ["/data/missing.txt"]) (Some "count_weekdays") None (Some "out.txt").

(** An operation outside the enumeration. *)
Definition unknown_operation_request : Arguments :=
  mkArguments None (Some "delete_everything") None (Some "out.txt").

(** Recent logs, the input given as a bare file name. *)
Definition bare_log_request : Arguments :=
  mkArguments (Some ["app.log"]) (Some "extract_recent_logs") None (Some "out.txt").

(** The operation that has no handler, with an empty first input. *)
Definition run_script_request : Arguments :=
  mkArguments (Some [""]) (Some "run_script") None (Some "out.txt").

(** A markdown index with no input file. *)
Definition index_request : Arguments :=
  mkArguments None (Some "create_markdown_index") None (Some "index.md").

(** An explicit empty input path. *)
Definition empty_input_request : Arguments :=
  mkArguments (Some [""]) (Some "sort_json") None (Some "out.json").

(** A state whose file system holds [dates.txt]. *)
Definition dates_state : State := mkState dates_world ∅ [].

End Examples.

(** ** Two more handlers *)

(** [sorted(l, key=...)].  Python's sort is stable, so its result is
    fixed by the order on the keys: it is modelled by insertion from the
    right, where [lt a b] says that [a] sorts strictly before [b]; an
    element goes in front of the first one that does not sort strictly
    before it, hence in front of its equals, which came later. *)
Fixpoint insert_by {A : Type} (lt : A -> A -> bool) (x : A) (l : list A) : list A :=
  match l with
  | [] => [x]
  | y :: r => if lt y x then y :: insert_by lt x r else x :: l
  end.

Fixpoint sorted_by {A : Type} (lt : A -> A -> bool) (l : list A) : list A :=
  match l with
  | [] => []
  | x :: r => insert_by lt x (sorted_by lt r)
  end.

(** [sep.join(parts)] *)
Fixpoint str_join (sep : string) (parts : list string) : string :=
  match parts with
  | [] => ""
  | [p] => p
  | p :: rest => p +:+ sep +:+ str_join sep rest
  end.

Module Contacts.

(** A decoded JSON object whose members are strings, in the order of the
    text; its keys are distinct. *)
Definition Contact : Type := list (string * string).

(** [x[key]], [None] standing for the missing key. *)
Fixpoint lookup (key : string) (x : Contact) : option string :=
  match x with
  | [] => None
  | (k, v) :: r => if bool_decide (k = key) then Some v else lookup key r
  end.

(** The key of line 200: [(x['last_name'], x['first_name'])]. *)
Definition sort_key (x : Contact) : Res (string * string) :=
  last_name <~ TaskExecutor.getitem "last_name" (lookup "last_name" x);
  first_name <~ TaskExecutor.getitem "first_name" (lookup "first_name" x);
  Ok (last_name, first_name).

(** The pair of names a contact that has both is sorted by. *)
Definition names (x : Contact) : string * string :=
  (default "" (lookup "last_name" x), default "" (lookup "first_name" x)).

(** [a < b] on pairs of strings: the first components decide unless
    they are equal; strings compare by character code. *)
Definition key_lt (a b : string * string) : bool :=
  if bool_decide (a.1 = b.1) then String.ltb a.2 b.2 else String.ltb a.1 b.1.

(** [sorted] computes the key of every element, in order, before it
    compares any. *)
Fixpoint decorate (l : list Contact) : Res (list ((string * string) * Contact)) :=
  match l with
  | [] => Ok []
  | x :: r =>
      k <~ sort_key x;
      d <~ decorate r;
      Ok ((k, x) :: d)
  end.

(** Lines 198-201. *)
Definition sorted_contacts (contacts : list Contact) : Res (list Contact) :=
  d <~ decorate contacts;
  Ok (map snd (sorted_by (fun a b => key_lt a.1 b.1) d)).

Section WithJson.

(** [json.load] on the text of a file: the list of objects it holds, or
    the exception the text leads to before any key is compared; and
    [json.dump(..., indent=2)]. *)
Variable json_load : string -> Res (list Contact).
Variable json_dump : list Contact -> string.

(** Lines 193-204. *)
Definition sort_contacts (input_file output_file : string) : M unit :=
  content <- open_read input_file;
  contacts <- lift (json_load content);
  sorted_contacts <- lift (sorted_contacts contacts);
  open_write output_file (json_dump sorted_contacts).

End WithJson.

End Contacts.

Module Logs.

Section WithDirectory.

(** [glob.glob(pattern)], the paths in the order the directory yields
    them, and [os.path.getmtime(path)] in whole time units: the code only
    compares modification times. *)
Variable glob : string -> list string.
Variable getmtime : string -> Z.

(** [open(path).read()] for each path in turn. *)
Fixpoint read_all (paths : list string) : M (list string) :=
  match paths with
  | [] => ret []
  | p :: rest =>
      content <- open_read p;
      contents <- read_all rest;
      ret (content :: contents)
  end.

(** Lines 213-217: newest first, at most three. *)
Definition recent_files (log_files : list string) : list (string * Z) :=
  let files_with_time := map (fun f => (f, getmtime f)) log_files in
  let sorted_files := sorted_by (fun a b => b.2 <? a.2) files_with_time in
  take 3 sorted_files.

(** Lines 206-226. *)
Definition extract_recent_logs (log_dir output_file : string) : M unit :=
  let log_files := glob (posixpath.join log_dir "*.log") in
  match log_files with
  | [] => raise (Exn ValueError ("No log files found in " +:+ log_dir))
  | _ =>
      contents <- read_all (map fst (recent_files log_files));
      open_write output_file (str_join (String "010" ("---" +:+ String "010" "")) contents)
  end.

End WithDirectory.

End Logs.

(** ** Regular expressions

    The three patterns of [format_markdown] and [extract_email_sender]
    are sequences of literal characters, single characters of a class,
    and greedy repetitions of a class, some of them captured.  The matcher
    tries the ways a repetition can match longest first and backtracks, as
    the [re] engine does. *)

Module re.

Inductive item :=
  | Lit (c : ascii)
  | Class (p : ascii -> bool)
  | Star (p : ascii -> bool)
  | Plus (p : ascii -> bool)
  | PlusGroup (p : ascii -> bool).

(** The ways a repetition of [p] can match at the start of [s]: what it
    takes and what it leaves, longest first, the empty match last. *)
Fixpoint runs (p : ascii -> bool) (s : list ascii) : list (list ascii * list ascii) :=
  match s with
  | x :: s' =>
      if p x then map (fun '(taken, rest) => (x :: taken, rest)) (runs p s') ++ [([], s)]
      else [([], s)]
  | [] => [([], [])]
  end.

Definition nonempty (r : list ascii * list ascii) : bool :=
  match r.1 with
  | [] => false
  | _ => true
  end.

(** Match [items] at the start of [s]: the groups captured, in order,
    and the text left. *)
Fixpoint match_items (items : list item) (s : list ascii)
    : option (list (list ascii) * list ascii) :=
  match items with
  | [] => Some ([], s)
  | Lit c :: items' =>
      match s with
      | x :: s' => if Ascii.eqb x c then match_items items' s' else None
      | [] => None
      end
  | Class p :: items' =>
      match s with
      | x :: s' => if p x then match_items items' s' else None
      | [] => None
      end
  | Star p :: items' =>
      datetime.first_some (fun r => match_items items' r.2) (runs p s)
  | Plus p :: items' =>
      datetime.first_some (fun r => match_items items' r.2) (List.filter nonempty (runs p s))
  | PlusGroup p :: items' =>
      datetime.first_some
        (fun r =>
           match match_items items' r.2 with
           | Some (groups, rest) => Some (r.1 :: groups, rest)
           | None => None
           end)
        (List.filter nonempty (runs p s))
  end.

(** [re.search]: the match at the first position that has one. *)
Fixpoint search (items : list item) (s : list ascii)
    : option (list (list ascii) * list ascii) :=
  match match_items items s with
  | Some r => Some r
  | None =>
      match s with
      | [] => None
      | _ :: s' => search items s'
      end
  end.

(** [re.sub] for a pattern that cannot match the empty string: from left
    to right, each match is replaced and the search goes on behind it.
    [skip] counts the characters of a match still to be passed over,
    [prev] is the character before the current one, and with [bol] set a
    match must start at the beginning of a line (the pattern starts with
    [^] and the [MULTILINE] flag is given). *)
Fixpoint sub_from (items : list item) (repl : list (list ascii) -> list ascii)
    (bol : bool) (prev : option ascii) (skip : nat) (s : list ascii) : list ascii :=
  match s with
  | [] => []
  | x :: s' =>
      match skip with
      | S k => sub_from items repl bol (Some x) k s'
      | O =>
          let at_line_start :=
            match prev with
            | None => true
            | Some c => Ascii.eqb c "010"
            end in
          if negb bol || at_line_start then
            match match_items items s with
            | Some (groups, rest) =>
                repl groups
                ++ sub_from items repl bol (Some x) (length s - length rest - 1) s'
            | None => x :: sub_from items repl bol (Some x) 0 s'
            end
          else x :: sub_from items repl bol (Some x) 0 s'
      end
  end.

Definition sub (items : list item) (repl : list (list ascii) -> list ascii)
    (bol : bool) (s : string) : string :=
  string_of_list_ascii (sub_from items repl bol None 0 (list_ascii_of_string s)).

Definition literal (text : string) : list item := map Lit (list_ascii_of_string text).

Definition other_than (c : ascii) : ascii -> bool := fun x => negb (Ascii.eqb x c).

End re.

Module Markdown.

(** The heading pattern: a hash, any white space, and a group of one or
    more characters other than the line feed; replaced by a hash, one
    space and the group. *)
Definition heading : list re.item :=
  [ re.Lit "#"; re.Star str.isspace; re.PlusGroup (re.other_than "010") ].

Definition heading_repl (groups : list (list ascii)) : list ascii :=
  list_ascii_of_string "# " ++ nth 0 groups [].

Definition bullet (c : ascii) : bool :=
  Ascii.eqb c "-" || Ascii.eqb c "+" || Ascii.eqb c "*".

(** The list pattern, with [MULTILINE]: at the start of a line, one of
    the three bullet characters and one or more white space characters;
    replaced by a hyphen and one space. *)
Definition list_item : list re.item := [ re.Class bullet; re.Plus str.isspace ].

Definition list_item_repl (groups : list (list ascii)) : list ascii :=
  list_ascii_of_string "- ".

(** Lines 150-163. *)
Definition format_markdown (input_file output_file : string) : M unit :=
  content <- open_read input_file;
  let content := re.sub heading heading_repl false content in
  let content := re.sub list_item list_item_repl true content in
  open_write output_file content.

End Markdown.

Module Email.

Definition quote : ascii := "034".

(** The sender pattern: the word From, a colon, a space, a quoted group
    of one or more characters other than the quote, a space, and between
    angle brackets a group of one or more characters other than the
    closing bracket. *)
Definition sender : list re.item :=
  re.literal "From: " ++
  [ re.Lit quote; re.PlusGroup (re.other_than quote); re.Lit quote;
    re.Lit " "; re.Lit "<"; re.PlusGroup (re.other_than ">"); re.Lit ">" ].

Section WithJson.

(** [json.dump] of the object with the members [name] and [email],
    [indent=2]. *)
Variable json_dump : string -> string -> string.

(** Lines 247-260. *)
Definition extract_email_sender (email_file output_file : string) : M unit :=
  content <- open_read email_file;
  match re.search sender (list_ascii_of_string content) with
  | Some ([name; email], _) =>
      open_write output_file
        (json_dump (string_of_list_ascii name) (string_of_list_ascii email))
  | _ => raise (Exn ValueError "Could not find sender information")
  end.

End WithJson.

End Email.

(** ** More example inputs *)

Module MoreExamples.

Definition ann : Contacts.Contact :=
  [("first_name", "Ann"); ("last_name", "Lee"); ("phone", "1")].
Definition bob : Contacts.Contact :=
  [("first_name", "Bob"); ("last_name", "Kay")].
Definition ann2 : Contacts.Contact :=
  [("first_name", "Ann"); ("last_name", "Lee"); ("phone", "2")].
Definition nameless : Contacts.Contact := [("last_name", "Lee")].

(** A decoder that knows two texts, and an encoder that lists first
    names. *)
Definition load (content : string) : Res (list Contacts.Contact) :=
  if bool_decide (content = "three contacts") then Ok [ann; bob; ann2]
  else if bool_decide (content = "one without a first name") then Ok [ann; nameless]
  else Raise (Exn JSONDecodeError "Expecting value: line 1 column 1 (char 0)").

Definition dump (l : list Contacts.Contact) : string :=
  str_join "," (map (fun x => default "" (Contacts.lookup "first_name" x)
                              +:+ default "" (Contacts.lookup "phone" x)) l).

Definition contacts_world : World :=
  mkWorld {[ "contacts.json" := File "three contacts";
             "broken.json" := File "one without a first name" ]} [].

(** A log directory with four files. *)
Definition logs_world : World :=
  mkWorld {[ "/logs/a.log" := File "A"; "/logs/b.log" := File "B";
             "/logs/c.log" := File "C"; "/logs/d.log" := File "D" ]} [].

Definition logs_glob (pattern : string) : list string :=
  if bool_decide (pattern = "/logs/*.log")
  then ["/logs/a.log"; "/logs/b.log"; "/logs/c.log"; "/logs/d.log"]
  else [].

Definition logs_mtime (path : string) : Z :=
  if bool_decide (path = "/logs/a.log") then 10
  else if bool_decide (path = "/logs/b.log") then 40
  else if bool_decide (path = "/logs/c.log") then 30
  else 20.

(** A registry with a pending and a finished task. *)
Definition two_tasks : gmap string TaskRecord :=
  TaskManager.create_task "t2" "./task_results/t2.out" Examples.finished.

(** An environment without a token. *)
Definition env_without_token : Env :=
  mkEnv None (fun _ _ _ => ConnectionFailed "unreachable") Examples.quiet.

(** A weekday count whose weekday is the empty string. *)
Definition empty_weekday_request : Arguments :=
  mkArguments (Some ["dates.txt"]) (Some "count_weekdays") (Some [("weekday", "")])
    (Some "out.txt").

(** A weekday count with a weekday, and one with a parameter the
    dataclass does not have. *)
Definition monday_request : Arguments :=
  mkArguments (Some ["dates.txt"]) (Some "count_weekdays") (Some [("weekday", "monday")])
    (Some "out.txt").
Definition odd_parameter_request : Arguments :=
  mkArguments None (Some "sort_json") (Some [("colour", "red")]) (Some "out.json").
Definition no_output_request : Arguments :=
  mkArguments None (Some "sort_json") None None.

(** Recent logs, the input given inside a directory. *)
Definition nested_log_request : Arguments :=
  mkArguments (Some ["logs/today/app.log"]) (Some "extract_recent_logs") None (Some "out.txt").

(** Two markdown files: plain text, and one heading line. *)
Definition notes : string := "a - b" +:+ String "010" "c*d".
Definition markdown_world : World :=
  mkWorld {[ "notes.md" := File notes; "title.md" := File "##   Title" ]} [].

(** A mail with a sender line, and an encoder that joins name and
    address with a bar. *)
Definition mail : string :=
  "To: x" +:+ String "010" "" +:+ "From: " +:+ String "034" "" +:+ "Ann Lee"
  +:+ String "034" "" +:+ " <ann@example.org>" +:+ String "010" "" +:+ "Hello".
Definition mail_world : World :=
  mkWorld {[ "mail.txt" := File mail; "empty.txt" := File "" ]} [].
Definition dump_sender (name email : string) : string := name +:+ "|" +:+ email.

(** A working directory that holds one log file, [app.log], and an
    environment in which log extraction is the handler of lines 206-226
    run on that directory: joined to the empty directory name the glob
    pattern is [*.log], and it finds the file. *)
Definition cwd_world : World := mkWorld {[ "app.log" := File "started" ]} [].

Definition cwd_glob (pattern : string) : list string :=
  if bool_decide (pattern = "*.log") then ["app.log"] else [].

Definition cwd_mtime (path : string) : Z := 0.

Definition cwd_transformer (h : Handler) (input output : string)
    (files : gmap string node) : Res unit * gmap string node :=
  match h with
  | self_extract_recent_logs =>
      let '(r, w) :=
        Logs.extract_recent_logs cwd_glob cwd_mtime input output (mkWorld files []) in
      (r, fs w)
  | _ => Examples.quiet h input output files
  end.

Definition cwd_env : Env :=
  mkEnv (Some "token") (fun _ _ _ => Decoded Examples.bare_log_request) cwd_transformer.

End MoreExamples.

(** * Properties *)

(** ** The registry *)

Section Registry.

Import TaskManager.

Implicit Types (tasks : gmap string TaskRecord) (id st path : string)
               (err : option string).

Lemma create_task_lookup id path tasks :
  get_task id (create_task id path tasks) = Some (mkTaskRecord "pending" path None).
Proof. unfold get_task, create_task. apply lookup_insert_eq. Qed.

Lemma update_task_unknown id st err tasks :
  tasks !! id = None -> update_task id st err tasks = tasks.
Proof. intros H. unfold update_task. by rewrite H. Qed.

Lemma update_task_known id st err tasks r :
  tasks !! id = Some r ->
  get_task id (update_task id st err tasks) = Some (mkTaskRecord st (output_path r) err).
Proof.
  intros H. unfold get_task, update_task. rewrite H. apply lookup_insert_eq.
Qed.

Lemma update_task_other id id' st err tasks :
  id' <> id -> get_task id' (update_task id st err tasks) = get_task id' tasks.
Proof.
  intros Hne. unfold get_task, update_task.
  destruct (tasks !! id); [| done]. by apply lookup_insert_ne.
Qed.

(** The keys of the registry never change under [update_task]. *)
Lemma update_task_dom id st err tasks :
  dom (update_task id st err tasks) = dom tasks.
Proof.
  unfold update_task. destruct (tasks !! id) as [r|] eqn:H; [| done].
  rewrite dom_insert_L. apply elem_of_dom_2 in H.
  apply subseteq_union_1_L. by apply singleton_subseteq_l.
Qed.

End Registry.

(** C3, as amended: a record is created pending; [update_task] on an
    unknown id changes nothing; on a known id it replaces status and error
    by the values given, whatever the record's current status, and leaves
    the output path and every other record as they were. *)
Theorem update_task_overwrites
    (tasks : gmap string TaskRecord) (id st path : string) (err : option string) :
  TaskManager.get_task id (TaskManager.create_task id path tasks)
    = Some (mkTaskRecord "pending" path None)
  /\ (tasks !! id = None -> TaskManager.update_task id st err tasks = tasks)
  /\ (forall r, tasks !! id = Some r ->
        TaskManager.get_task id (TaskManager.update_task id st err tasks)
          = Some (mkTaskRecord st (output_path r) err))
  /\ (forall id', id' <> id ->
        TaskManager.get_task id' (TaskManager.update_task id st err tasks)
          = TaskManager.get_task id' tasks).
Proof.
  split; [apply create_task_lookup |].
  split; [apply update_task_unknown |].
  split; [intros r; apply update_task_known |].
  intros id'; apply update_task_other.
Qed.

Lemma update_task_overwrites_witness :
  Examples.finished !! "t1"
    = Some (mkTaskRecord "completed" "./task_results/t1.out" None)
  /\ TaskManager.get_task "t1"
       (TaskManager.update_task "t1" "pending" (Some "again") Examples.finished)
     = Some (mkTaskRecord "pending" "./task_results/t1.out" (Some "again"))
  /\ TaskManager.update_task "t2" "completed" None Examples.finished = Examples.finished.
Proof.
  assert (H : Examples.finished !! "t1"
              = Some (mkTaskRecord "completed" "./task_results/t1.out" None))
    by (vm_compute; reflexivity).
  destruct (update_task_overwrites Examples.finished "t1" "pending" "" (Some "again"))
    as (_ & _ & Hknown & _).
  destruct (update_task_overwrites Examples.finished "t2" "completed" "" None)
    as (_ & Hunknown & _ & _).
  split; [exact H |].
  split; [exact (Hknown _ H) |].
  apply Hunknown. vm_compute; reflexivity.
Defined.

(** C3, as stated, fails: a second [update_task] on a record that is
    already [completed] is carried out, and turns it into [error]. *)
Lemma terminal_record_overwritten :
  TaskManager.get_task "t1" Examples.finished
    = Some (mkTaskRecord "completed" "./task_results/t1.out" None)
  /\ TaskManager.get_task "t1"
       (TaskManager.update_task "t1" "error" (Some "late") Examples.finished)
     = Some (mkTaskRecord "error" "./task_results/t1.out" (Some "late"))
  /\ TaskManager.update_task "t1" "error" (Some "late") Examples.finished
     <> Examples.finished.
Proof.
  split; [vm_compute; reflexivity |].
  split; [vm_compute; reflexivity |].
  intros H.
  assert (H' : TaskManager.get_task "t1"
                 (TaskManager.update_task "t1" "error" (Some "late") Examples.finished)
               = TaskManager.get_task "t1" Examples.finished) by (by rewrite H).
  vm_compute in H'. discriminate H'.
Qed.

(** ** The enumeration and the two tables *)

(** Every constructor is listed: [OperationType_members] is the whole
    enumeration. *)
Lemma OperationType_members_all (op : OperationType) : In op OperationType_members.
Proof. destruct op; simpl; tauto. Qed.

Lemma OperationType_of_value_value (op : OperationType) :
  OperationType_of_value (value op) = Ok op.
Proof. by destruct op. Qed.

(** C4, as amended: the handler table and the default-path table have an
    entry for exactly the members other than [RUN_SCRIPT], so the two
    tables agree with each other on all ten members and every default
    path is non-empty; [RUN_SCRIPT] is in the enumeration with neither. *)
Theorem tables_cover_all_but_run_script (op : OperationType) :
  In op OperationType_members
  /\ (is_Some (dict_get TaskExecutor.handler_map op) <-> op <> RUN_SCRIPT)
  /\ (is_Some (dict_get TaskExecutor.task_data_dirs op) <-> op <> RUN_SCRIPT)
  /\ dict_get TaskExecutor.task_data_dirs op <> Some "".
Proof.
  split; [apply OperationType_members_all |].
  split; [| split]; [| | by destruct op].
  all: destruct op; cbn; split; intros H; try discriminate;
    solve [ by destruct H as [x Hx] | congruence | eexists; reflexivity ].
Qed.

(** C4, as stated, fails at [RUN_SCRIPT]: a member of the enumeration
    with no handler and no default path. *)
Lemma run_script_has_no_handler :
  In RUN_SCRIPT OperationType_members
  /\ dict_get TaskExecutor.handler_map RUN_SCRIPT = None
  /\ dict_get TaskExecutor.task_data_dirs RUN_SCRIPT = None.
Proof. split; [simpl; tauto |]. split; reflexivity. Qed.

(** ** The parser *)

Section Parser.

Import TaskExecutor.

Variable env : Env.

Lemma OperationType_of_value_inv (s : string) (op : OperationType) :
  OperationType_of_value s = Ok op -> value op = s.
Proof.
  unfold OperationType_of_value.
  destruct (find _ _) as [op'|] eqn:Hfind; [| discriminate].
  intros [= <-]. apply find_some in Hfind as [_ Hdec].
  by apply bool_decide_eq_true in Hdec.
Qed.

(** A value outside the enumeration is refused with the enumeration's
    own [ValueError]. *)
Lemma OperationType_of_value_unknown (s : string) :
  (forall op, value op <> s) ->
  OperationType_of_value s
    = Raise (Exn ValueError ("'" +:+ s +:+ "' is not a valid OperationType")).
Proof.
  intros Hno. unfold OperationType_of_value.
  destruct (find _ _) as [op|] eqn:Hfind; [| done].
  apply find_some in Hfind as [_ Hdec].
  apply bool_decide_eq_true in Hdec. by destruct (Hno op).
Qed.

Lemma build_inv (arguments : Arguments) (parsed : ParsedTask) :
  build arguments = Ok parsed ->
  arg_operation arguments = Some (value (operation parsed))
  /\ arg_output_file arguments = Some (output_file parsed)
  /\ input_files parsed = default [] (arg_input_files arguments).
Proof.
  unfold build, res_bind, getitem.
  destruct (arg_operation arguments) as [s|]; [| discriminate].
  destruct (OperationType_of_value s) as [op|] eqn:Hop; [| discriminate].
  destruct (TaskParameters_init _ _) as [ps|]; [| discriminate].
  destruct (arg_output_file arguments) as [out|]; [| discriminate].
  intros [= <-]. simpl. by rewrite (OperationType_of_value_inv _ _ Hop).
Qed.

Lemma except_KeyError_ok {A} (r : Res A) (a : A) :
  except_KeyError r = Ok a -> r = Ok a.
Proof.
  destruct r as [a'|e]; simpl; [done |]. by destruct (bool_decide _).
Qed.

(** What [parse_task_description] returns carries a member of the
    enumeration, the one whose value the service named. *)
Lemma parse_returns_member (self : t) (desc : option string) (parsed : ParsedTask) :
  parse_task_description env self desc = Ok parsed ->
  exists arguments,
    requests_post env (base_url self +:+ "chat/completions") (api_token self) desc
      = Decoded arguments
    /\ arg_operation arguments = Some (value (operation parsed))
    /\ In (operation parsed) OperationType_members.
Proof.
  unfold parse_task_description.
  destruct (requests_post _ _ _ _) as [m|text|f|arguments]; try discriminate.
  - intros H. apply except_KeyError_ok in H. discriminate.
  - intros H. apply except_KeyError_ok, build_inv in H as (Hop & _ & _).
    exists arguments. split; [done |]. split; [done |].
    apply OperationType_members_all.
Qed.

(** The classes [parse_task_description] can raise: the two
    [RuntimeError] translations, and whatever else the body raised. *)
Lemma parse_never_raises_KeyError (self : t) (desc : option string) (e : exn) :
  parse_task_description env self desc = Raise e ->
  cls e <> KeyError /\ cls e <> HTTPError.
Proof.
  assert (Hbuild : forall a e', build a = Raise e' -> cls e' <> HTTPError).
  { intros a e'. unfold build, res_bind, getitem.
    destruct (arg_operation a) as [s|]; [| by intros [= <-]].
    unfold OperationType_of_value.
    destruct (find _ _) as [op|]; [| by intros [= <-]].
    generalize (mkTaskParameters None None None).
    induction (default [] (arg_parameters a)) as [| [k v] kw IH]; intros acc; simpl.
    - destruct (arg_output_file a); [discriminate | by intros [= <-]].
    - repeat case_bool_decide; try apply IH. by intros [= <-]. }
  assert (Hexc : forall A (r : Res A) e',
             (forall e0, r = Raise e0 -> cls e0 <> HTTPError) ->
             except_KeyError r = Raise e' -> cls e' <> KeyError /\ cls e' <> HTTPError).
  { intros A [a|e0] e' Hr; simpl; [discriminate |].
    case_bool_decide as Hk; intros [= <-]; simpl; [done |].
    split; [done |]. by apply Hr. }
  unfold parse_task_description.
  destruct (requests_post _ _ _ _) as [m|text|f|arguments].
  - by intros [= <-].
  - by intros [= <-].
  - apply Hexc. intros e0 [= <-]. by destruct f.
  - apply Hexc. intros e0. apply Hbuild.
Qed.

(** The two translations the parser makes. *)
Lemma parse_status_error (self : t) (desc : option string) (text : string) :
  requests_post env (base_url self +:+ "chat/completions") (api_token self) desc
    = StatusError text ->
  parse_task_description env self desc
  = Raise (Exn RuntimeError ("AI Proxy error: " +:+ text)).
Proof. intros H. unfold parse_task_description. by rewrite H. Qed.

Lemma parse_missing_operation (self : t) (desc : option string) (arguments : Arguments) :
  requests_post env (base_url self +:+ "chat/completions") (api_token self) desc
    = Decoded arguments ->
  arg_operation arguments = None ->
  parse_task_description env self desc
  = Raise (Exn RuntimeError "Malformed API response: 'operation'").
Proof.
  intros H Hop. unfold parse_task_description. rewrite H.
  unfold build, getitem. by rewrite Hop.
Qed.

(** The case the parser does not translate: an operation outside the
    enumeration, whatever else the arguments hold. *)
Lemma parse_unknown_operation (self : t) (desc : option string)
    (arguments : Arguments) (s : string) :
  requests_post env (base_url self +:+ "chat/completions") (api_token self) desc
    = Decoded arguments ->
  arg_operation arguments = Some s ->
  (forall op, value op <> s) ->
  parse_task_description env self desc
  = Raise (Exn ValueError ("'" +:+ s +:+ "' is not a valid OperationType")).
Proof.
  intros H Hop Hno. unfold parse_task_description. rewrite H.
  unfold build, getitem. rewrite Hop. simpl.
  by rewrite (OperationType_of_value_unknown s Hno).
Qed.

End Parser.

(** C2, evaluated where it fails: the service names an operation outside
    the enumeration; the parser returns nothing, but what it raises is the
    enumeration's [ValueError], not one of its two [RuntimeError]s. *)
Theorem parse_task_description_unknown_operation :
  TaskExecutor.parse_task_description
    (Examples.env_with (Decoded Examples.unknown_operation_request))
    Examples.executor (Some "delete everything under /data")
  = Raise (Exn ValueError "'delete_everything' is not a valid OperationType").
Proof. vm_compute. reflexivity. Qed.

(** ** Dispatch *)

Section Dispatch.

Import TaskExecutor.

Variable env : Env.

(** A handler call is the first thing its own trace shows. *)
Lemma call_trace (h : Handler) (args : list string) (w : World) :
  exists evs, trace (snd (call env h args w)) = trace w ++ Call h args :: evs.
Proof.
  assert (Hcount : forall i wd o, exists evs,
             trace (snd (count_weekdays i wd o (mkWorld (fs w) (trace w ++ [Call h args]))))
             = trace w ++ Call h args :: evs).
  { intros i wd o. unfold count_weekdays, open_read, open_write, bind, log. simpl.
    destruct (fs w !! i) as [[content|]|]; simpl;
      try (exists [Open i "r"]; by rewrite <- app_assoc).
    destruct (fs w !! o) as [[c|]|]; simpl;
      exists [Open i "r"; Open o "w"]; by rewrite <- !app_assoc. }
  assert (Hext : forall i o, exists evs,
             trace (snd (let '(r, files) := transformer env h i o (fs w) in
                         (r, mkWorld files (trace w ++ [Call h args]))))
             = trace w ++ Call h args :: evs).
  { intros i o. destruct (transformer env h i o (fs w)) as [r files]. simpl.
    by exists []. }
  unfold call, bind, log. simpl.
  destruct h; destruct args as [| a [| b [| c [| d r]]]]; simpl;
    solve [ by exists [] | apply Hcount | apply Hext ].
Qed.

Lemma call_changes_world (h : Handler) (args : list string) (w : World) (r : Res unit) :
  call env h args w <> (r, w).
Proof.
  intros H. destruct (call_trace h args w) as [evs Hevs].
  rewrite H in Hevs. simpl in Hevs.
  apply (f_equal length) in Hevs. rewrite length_app in Hevs. simpl in Hevs. lia.
Qed.

Variables (self : t) (desc : option string).

Lemma execute_parse_error (e : exn) (w : World) :
  parse_task_description env self desc = Raise e ->
  execute env self desc w = (Raise e, w).
Proof. intros H. unfold execute, bind, lift. by rewrite H. Qed.

Variable parsed : ParsedTask.
Hypothesis Hparse : parse_task_description env self desc = Ok parsed.

Lemma execute_unsupported (w : World) :
  dict_get handler_map (operation parsed) = None ->
  execute env self desc w
  = (Raise (Exn ValueError
              ("Unsupported operation: " +:+ str_OperationType (operation parsed))), w).
Proof. intros H. unfold execute, bind, lift. rewrite Hparse. by rewrite H. Qed.

Lemma execute_no_input (w : World) :
  is_Some (dict_get handler_map (operation parsed)) ->
  input_path_of parsed = "" ->
  execute env self desc w
  = (Raise (Exn ValueError
              ("No valid input path found for operation: "
               +:+ str_OperationType (operation parsed))), w).
Proof.
  intros [h Hh] Hin. unfold execute, bind, lift. rewrite Hparse, Hh, Hin. done.
Qed.

(** The arguments line 370-375 pass to the handler. *)
Lemma execute_calls (h : Handler) (w : World) :
  dict_get handler_map (operation parsed) = Some h ->
  input_path_of parsed <> "" ->
  execute env self desc w
  = call env h
      (if bool_decide (operation parsed = COUNT_WEEKDAYS) then
         [ input_path_of parsed; or_else (weekday (parameters parsed)) "Wednesday";
           output_file parsed ]
       else if bool_decide (operation parsed = EXTRACT_RECENT_LOGS)
               || bool_decide (operation parsed = CREATE_MARKDOWN_INDEX) then
         [ posixpath.dirname (input_path_of parsed); output_file parsed ]
       else [ input_path_of parsed; output_file parsed ])
      w.
Proof.
  intros Hh Hin. unfold execute, bind, lift. rewrite Hparse, Hh.
  unfold truthy. rewrite bool_decide_eq_false_2 by done. simpl.
  destruct (bool_decide (operation parsed = COUNT_WEEKDAYS)); [done |].
  by destruct (bool_decide _ || bool_decide _).
Qed.

(** With a handler registered, the default path is there and not empty. *)
Lemma default_path_configured :
  is_Some (dict_get handler_map (operation parsed)) ->
  exists d, dict_get task_data_dirs (operation parsed) = Some d /\ d <> "".
Proof.
  intros [h Hh]. destruct (operation parsed); simpl in *;
    try discriminate; eexists; (split; [reflexivity | discriminate]).
Qed.

End Dispatch.

(** ** The request path *)

Section Request.

Variable env : Env.
Variables (self : TaskExecutor.t) (desc : option string) (uuid : string) (st : State).
Hypothesis Hinit : TaskExecutor.init env None = Ok self.

(** Whatever [execute] raises, parse failure or handler failure alike,
    is answered with a 400 and leaves the registry alone. *)
Lemma handle_task_error (e : exn) (w : World) :
  TaskExecutor.execute env self desc (world st) = (Raise e, w) ->
  handle_task env desc uuid st
  = (Ok (mkResponse 400 [("error", msg e)]), mkState w (tasks st) (started st)).
Proof. intros H. unfold handle_task. by rewrite Hinit, H. Qed.

Lemma handle_task_rejects (e : exn) :
  TaskExecutor.execute env self desc (world st) = (Raise e, world st) ->
  handle_task env desc uuid st = (Ok (mkResponse 400 [("error", msg e)]), st).
Proof. intros H. rewrite (handle_task_error e _ H). by destruct st. Qed.


End Request.

(** The background thread makes one update, and it is always [error]. *)
Lemma background_task_records_error (task_id : string) (st : State) :
  background_task task_id st
  = mkState (world st)
      (TaskManager.update_task task_id "error"
         (Some "'TaskExecutor' object has no attribute 'execute_parsed'") (tasks st))
      (started st).
Proof. reflexivity. Qed.

(** C1, evaluated where it fails.  First request: the input file of a
    weekday count is missing; the handler runs inside the request, its
    [FileNotFoundError] comes back as the 400 answer, and no record
    exists to hold it.  Second request: the handler succeeds inside the
    request and writes its output; the record is created afterwards, and
    the background thread, which calls a method the class does not have,
    turns it into [error]. *)
Theorem handle_task_runs_handler_in_request :
  handle_task (Examples.env_with (Decoded Examples.missing_file_request))
    (Some "count the Wednesdays in /data/missing.txt") "id-1" Examples.empty_state
  = (Ok (mkResponse 400
           [("error", "[Errno 2] No such file or directory: '/data/missing.txt'")]),
     mkState
       (mkWorld ∅ [ Call self_count_weekdays ["/data/missing.txt"; "Wednesday"; "out.txt"];
                    Open "/data/missing.txt" "r" ])
       ∅ [])
  /\ (let '(r, st) :=
        handle_task (Examples.env_with (Decoded Examples.count_request))
          (Some "count the Wednesdays in dates.txt") "id-1" Examples.dates_state in
      r = Ok (mkResponse 202 [("task_id", "id-1")])
      /\ fs (world st) !! "out.txt" = Some (File "2")
      /\ tasks st !! "id-1" = Some (mkTaskRecord "pending" "./task_results/id-1.out" None)
      /\ started st = ["id-1"]
      /\ tasks (background_task "id-1" st) !! "id-1"
         = Some (mkTaskRecord "error" "./task_results/id-1.out"
                   (Some "'TaskExecutor' object has no attribute 'execute_parsed'"))).
Proof. split; [vm_compute; reflexivity |]. vm_compute. repeat split. Qed.

(** C8: when the parser raises, or the parsed operation has no handler,
    or the resolved input path is empty, [handle_task] answers 400 with
    an error message and the state (registry, started threads, files,
    trace) is what it was. *)
Theorem handle_task_failure_is_atomic
    (env : Env) (self : TaskExecutor.t) (desc : option string) (uuid : string) (st : State) :
  TaskExecutor.init env None = Ok self ->
  (exists e, TaskExecutor.parse_task_description env self desc = Raise e)
  \/ (exists parsed,
        TaskExecutor.parse_task_description env self desc = Ok parsed
        /\ (dict_get TaskExecutor.handler_map (operation parsed) = None
            \/ TaskExecutor.input_path_of parsed = "")) ->
  exists m, handle_task env desc uuid st = (Ok (mkResponse 400 [("error", m)]), st).
Proof.
  intros Hinit [[e He] | (parsed & Hp & Hd)].
  - exists (msg e). apply handle_task_rejects with self; [done |].
    by apply execute_parse_error.
  - destruct (dict_get TaskExecutor.handler_map (operation parsed)) as [h|] eqn:Hh.
    + destruct Hd as [Hd | Hd]; [discriminate |].
      eexists. apply handle_task_rejects with self; [done |].
      apply execute_no_input with (parsed := parsed); [done | by rewrite Hh | done].
    + eexists. apply handle_task_rejects with self; [done |].
      by apply execute_unsupported with (parsed := parsed).
Qed.

Lemma handle_task_failure_is_atomic_witness :
  (exists m,
     handle_task (Examples.env_with (Decoded (mkArguments None None None None)))
       (Some "do something") "id-1" Examples.dates_state
     = (Ok (mkResponse 400 [("error", m)]), Examples.dates_state))
  /\ (exists m,
        handle_task (Examples.env_with (Decoded Examples.empty_input_request))
          (Some "sort the contacts") "id-2" Examples.dates_state
        = (Ok (mkResponse 400 [("error", m)]), Examples.dates_state)).
Proof.
  split.
  - apply (handle_task_failure_is_atomic _ Examples.executor).
    + vm_compute; reflexivity.
    + left. eexists. vm_compute; reflexivity.
  - apply (handle_task_failure_is_atomic _ Examples.executor).
    + vm_compute; reflexivity.
    + right. eexists. split; [vm_compute; reflexivity |]. right. reflexivity.
Defined.

(** C5, as amended.  For a parsed task whose operation has a handler,
    the input path is the first input file when there is one and the
    operation's default otherwise.  If that path is empty, [execute]
    raises the no-valid-input-path error with the world untouched, so
    that [handle_task] answers 400 and registers nothing.  If it is not
    empty the handler is called with that very path, or, for log
    extraction and markdown indexing, with its directory name: the path is
    checked once, before the directory reduction, and a directory name
    that comes out empty is passed on.  A task whose operation has no
    handler is refused as unsupported, whatever its input files are, with
    the world untouched. *)
Theorem input_path_resolution
    (env : Env) (self : TaskExecutor.t) (desc : option string)
    (parsed : ParsedTask) (w : World) :
  TaskExecutor.parse_task_description env self desc = Ok parsed ->
  (forall first rest, input_files parsed = first :: rest ->
     TaskExecutor.input_path_of parsed = first)
  /\ (input_files parsed = [] ->
      is_Some (dict_get TaskExecutor.handler_map (operation parsed)) ->
      dict_get TaskExecutor.task_data_dirs (operation parsed)
        = Some (TaskExecutor.input_path_of parsed)
      /\ TaskExecutor.input_path_of parsed <> "")
  /\ (forall h, dict_get TaskExecutor.handler_map (operation parsed) = Some h ->
      (TaskExecutor.input_path_of parsed = "" ->
         TaskExecutor.execute env self desc w
           = (Raise (Exn ValueError
                       ("No valid input path found for operation: "
                        +:+ str_OperationType (operation parsed))), w)
         /\ forall uuid st,
              TaskExecutor.init env None = Ok self ->
              handle_task env desc uuid st
              = (Ok (mkResponse 400
                       [("error", "No valid input path found for operation: "
                                  +:+ str_OperationType (operation parsed))]), st))
      /\ (TaskExecutor.input_path_of parsed <> "" ->
          TaskExecutor.execute env self desc w
          = TaskExecutor.call env h
              (if bool_decide (operation parsed = COUNT_WEEKDAYS) then
                 [ TaskExecutor.input_path_of parsed;
                   or_else (weekday (parameters parsed)) "Wednesday";
                   output_file parsed ]
               else if bool_decide (operation parsed = EXTRACT_RECENT_LOGS)
                       || bool_decide (operation parsed = CREATE_MARKDOWN_INDEX) then
                 [ posixpath.dirname (TaskExecutor.input_path_of parsed);
                   output_file parsed ]
               else [ TaskExecutor.input_path_of parsed; output_file parsed ])
              w)
      /\ (TaskExecutor.input_path_of parsed <> "" ->
          posixpath.dirname (TaskExecutor.input_path_of parsed) = "" ->
          operation parsed = EXTRACT_RECENT_LOGS
          \/ operation parsed = CREATE_MARKDOWN_INDEX ->
          TaskExecutor.execute env self desc w
          = TaskExecutor.call env h [ ""; output_file parsed ] w))
  /\ (dict_get TaskExecutor.handler_map (operation parsed) = None ->
      TaskExecutor.execute env self desc w
        = (Raise (Exn ValueError
                    ("Unsupported operation: "
                     +:+ str_OperationType (operation parsed))), w)
      /\ forall uuid st,
           TaskExecutor.init env None = Ok self ->
           handle_task env desc uuid st
           = (Ok (mkResponse 400
                    [("error", "Unsupported operation: "
                               +:+ str_OperationType (operation parsed))]), st)).
Proof.
  intros Hparse. split; [| split; [| split]].
  - intros first rest H. unfold TaskExecutor.input_path_of. by rewrite H.
  - intros H Hsome.
    destruct (default_path_configured parsed Hsome) as (d & Hd & Hne).
    unfold TaskExecutor.input_path_of. rewrite H, Hd. done.
  - intros h Hh.
    assert (Hsome : is_Some (dict_get TaskExecutor.handler_map (operation parsed)))
      by (by exists h).
    split; [| split].
    + intros Hempty.
      pose proof (execute_no_input env self desc parsed Hparse) as Hexec.
      split; [by apply Hexec |].
      intros uuid st Hinit.
      apply (handle_task_rejects env self desc uuid st Hinit
               (Exn ValueError ("No valid input path found for operation: "
                                +:+ str_OperationType (operation parsed)))).
      by apply Hexec.
    + intros Hne. by apply execute_calls with (parsed := parsed).
    + intros Hne Hdir Hop.
      rewrite (execute_calls env self desc parsed Hparse h w Hh Hne), Hdir.
      destruct Hop as [Hop | Hop]; rewrite Hop; reflexivity.
  - intros Hnone.
    pose proof (execute_unsupported env self desc parsed Hparse) as Hexec.
    split; [by apply Hexec |].
    intros uuid st Hinit.
    apply (handle_task_rejects env self desc uuid st Hinit
             (Exn ValueError ("Unsupported operation: "
                              +:+ str_OperationType (operation parsed)))).
    by apply Hexec.
Qed.

Lemma input_path_resolution_witness :
  TaskExecutor.execute (Examples.env_with (Decoded Examples.empty_input_request))
    Examples.executor (Some "sort the contacts") Examples.empty_world
  = (Raise (Exn ValueError "No valid input path found for operation: OperationType.SORT_JSON"),
     Examples.empty_world).
Proof.
  pose (parsed := mkParsedTask [""] SORT_JSON Examples.no_parameters "out.json").
  destruct (input_path_resolution
              (Examples.env_with (Decoded Examples.empty_input_request))
              Examples.executor (Some "sort the contacts") parsed Examples.empty_world)
    as (_ & _ & Hhandler & _).
  - vm_compute; reflexivity.
  - destruct (Hhandler self_sort_contacts) as [Hempty _]; [reflexivity |].
    destruct Hempty as [Hexec _]; [reflexivity |]. exact Hexec.
Defined.

(** C5, as stated, fails.  A log extraction whose input is the bare name
    [app.log], in a working directory that holds this file: the directory
    rule leaves the empty string, the handler is called with it and, the
    glob pattern being [*.log], finds the file and writes the output;
    nothing is raised, and the request is accepted, its record created
    and its thread started.  And a task for [RUN_SCRIPT] whose first input is
    empty is refused as unsupported, not for its path. *)
Lemma empty_directory_reaches_handler :
  posixpath.dirname "app.log" = ""
  /\ TaskExecutor.execute MoreExamples.cwd_env
       Examples.executor (Some "collect the recent logs") MoreExamples.cwd_world
     = (Ok tt,
        mkWorld (<["out.txt" := File "started"]> (fs MoreExamples.cwd_world))
          [ Call self_extract_recent_logs [""; "out.txt"] ])
  /\ handle_task MoreExamples.cwd_env (Some "collect the recent logs") "id-1"
       (mkState MoreExamples.cwd_world ∅ [])
     = (Ok (mkResponse 202 [("task_id", "id-1")]),
        mkState
          (mkWorld (<["out.txt" := File "started"]> (fs MoreExamples.cwd_world))
             [ Call self_extract_recent_logs [""; "out.txt"] ])
          (TaskManager.create_task "id-1" "./task_results/id-1.out" ∅)
          ["id-1"])
  /\ TaskExecutor.execute (Examples.env_with (Decoded Examples.run_script_request))
       Examples.executor (Some "run the script") Examples.empty_world
     = (Raise (Exn ValueError "Unsupported operation: OperationType.RUN_SCRIPT"),
        Examples.empty_world).
Proof. repeat split; vm_compute; reflexivity. Qed.

(** C6: with a handler found and a non-empty input path, log extraction
    and markdown indexing are called on the directory name of the path,
    the weekday count and every other operation on the path itself.  A
    markdown index with no input file takes the default [/data/docs],
    which is not empty, and is called on [/data]: [execute] raises the
    no-valid-input-path error there only if the default is empty. *)
Theorem directory_reduction
    (env : Env) (self : TaskExecutor.t) (desc : option string)
    (parsed : ParsedTask) (h : Handler) (w : World) :
  TaskExecutor.parse_task_description env self desc = Ok parsed ->
  dict_get TaskExecutor.handler_map (operation parsed) = Some h ->
  (TaskExecutor.input_path_of parsed <> "" ->
     (operation parsed = EXTRACT_RECENT_LOGS \/ operation parsed = CREATE_MARKDOWN_INDEX ->
        TaskExecutor.execute env self desc w
        = TaskExecutor.call env h
            [ posixpath.dirname (TaskExecutor.input_path_of parsed); output_file parsed ] w)
     /\ (operation parsed = COUNT_WEEKDAYS ->
           TaskExecutor.execute env self desc w
           = TaskExecutor.call env h
               [ TaskExecutor.input_path_of parsed;
                 or_else (weekday (parameters parsed)) "Wednesday";
                 output_file parsed ] w)
     /\ (operation parsed <> EXTRACT_RECENT_LOGS ->
         operation parsed <> CREATE_MARKDOWN_INDEX ->
         operation parsed <> COUNT_WEEKDAYS ->
           TaskExecutor.execute env self desc w
           = TaskExecutor.call env h
               [ TaskExecutor.input_path_of parsed; output_file parsed ] w))
  /\ (operation parsed = CREATE_MARKDOWN_INDEX -> input_files parsed = [] ->
        TaskExecutor.input_path_of parsed
          = default "" (dict_get TaskExecutor.task_data_dirs CREATE_MARKDOWN_INDEX)
        /\ TaskExecutor.execute env self desc w
           = TaskExecutor.call env self_create_markdown_index
               [ "/data"; output_file parsed ] w
        /\ (TaskExecutor.execute env self desc w
              = (Raise (Exn ValueError
                          ("No valid input path found for operation: "
                           +:+ str_OperationType (operation parsed))), w) ->
            default "" (dict_get TaskExecutor.task_data_dirs CREATE_MARKDOWN_INDEX) = "")).
Proof.
  intros Hparse Hh. split.
  - intros Hne. pose proof (execute_calls env self desc parsed Hparse h w Hh Hne) as Hexec.
    repeat split.
    + intros [Hop | Hop]; rewrite Hexec, Hop; reflexivity.
    + intros Hop. rewrite Hexec, Hop. reflexivity.
    + intros Hlogs Hindex Hcount. rewrite Hexec.
      by rewrite !bool_decide_eq_false_2.
  - intros Hop Hfiles.
    assert (Hin : TaskExecutor.input_path_of parsed = "/data/docs").
    { unfold TaskExecutor.input_path_of. by rewrite Hfiles, Hop. }
    assert (Hhandler : h = self_create_markdown_index).
    { rewrite Hop in Hh. simpl in Hh. congruence. }
    assert (Hexec : TaskExecutor.execute env self desc w
                    = TaskExecutor.call env self_create_markdown_index
                        [ "/data"; output_file parsed ] w).
    { rewrite (execute_calls env self desc parsed Hparse h w Hh) by (by rewrite Hin).
      rewrite Hop, Hin, Hhandler. reflexivity. }
    repeat split; [by rewrite Hin | exact Hexec |].
    rewrite Hexec. intros Hraise. by apply call_changes_world in Hraise.
Qed.

Lemma directory_reduction_witness :
  TaskExecutor.execute (Examples.env_with (Decoded Examples.index_request))
    Examples.executor (Some "index the markdown files") Examples.empty_world
  = TaskExecutor.call (Examples.env_with (Decoded Examples.index_request))
      self_create_markdown_index [ "/data"; "index.md" ] Examples.empty_world.
Proof.
  pose (parsed := mkParsedTask [] CREATE_MARKDOWN_INDEX Examples.no_parameters "index.md").
  destruct (directory_reduction
              (Examples.env_with (Decoded Examples.index_request))
              Examples.executor (Some "index the markdown files") parsed
              self_create_markdown_index Examples.empty_world)
    as (_ & Hindex).
  - vm_compute; reflexivity.
  - reflexivity.
  - destruct Hindex as (_ & Hexec & _); [reflexivity | reflexivity |]. exact Hexec.
Defined.

(** ** The weekday count *)

Section Weekdays.

Import TaskExecutor.

Lemma to_upper_to_lower (c : ascii) : str.to_upper (str.to_lower c) = str.to_upper c.
Proof. destruct c as [[] [] [] [] [] [] [] []]; reflexivity. Qed.

(** Two spellings that differ in letter case only have one capitalised
    form. *)
Lemma capitalize_lower (s1 s2 : string) :
  str.lower s1 = str.lower s2 -> str.capitalize s1 = str.capitalize s2.
Proof.
  destruct s1 as [| c1 r1], s2 as [| c2 r2]; simpl; try done.
  intros [= Hc Hr]. rewrite Hr. f_equal.
  by rewrite <- (to_upper_to_lower c1), Hc, to_upper_to_lower.
Qed.

Lemma capitalize_day_name (name : string) :
  In name datetime.day_names -> str.capitalize name = name.
Proof. simpl. intros H. repeat (destruct H as [<- | H]; [reflexivity |]). done. Qed.

(** *** [capitalize] against title case *)

Local Abbreviation letters s :=
  (Forall (fun c => str.isalpha c = true) (list_ascii_of_string s)).

Lemma islower_to_lower (c : ascii) : str.islower c = true -> str.to_lower c = c.
Proof. destruct c as [[] [] [] [] [] [] [] []]; by intros [=]. Qed.

Lemma isupper_to_upper (c : ascii) : str.isupper c = true -> str.to_upper c = c.
Proof. destruct c as [[] [] [] [] [] [] [] []]; by intros [=]. Qed.

Lemma isalpha_to_upper (c : ascii) : str.isalpha (str.to_upper c) = str.isalpha c.
Proof. destruct c as [[] [] [] [] [] [] [] []]; reflexivity. Qed.

Lemma isalpha_to_lower (c : ascii) : str.isalpha (str.to_lower c) = str.isalpha c.
Proof. destruct c as [[] [] [] [] [] [] [] []]; reflexivity. Qed.

(** On a word made of letters, title case is [capitalize]. *)
Lemma title_from_letters (s : string) (b : bool) :
  letters s -> str.title_from b s = if b then str.lower s else str.capitalize s.
Proof.
  revert b. induction s as [| c r IH]; intros b H; [by destruct b |].
  cbn [list_ascii_of_string] in H. apply Forall_cons in H as [Hc Hr].
  cbn [str.title_from str.lower str.capitalize].
  rewrite (IH true Hr).
  destruct (str.islower c) eqn:Hl.
  - destruct b; [by rewrite islower_to_lower | done].
  - destruct (str.isupper c) eqn:Hu.
    + destruct b; [done | by rewrite isupper_to_upper].
    + unfold str.isalpha in Hc. rewrite Hl, Hu in Hc. discriminate.
Qed.

Lemma letters_title_from (s : string) (b : bool) :
  letters (str.title_from b s) -> letters s.
Proof.
  revert b. induction s as [| c r IH]; intros b; [done |].
  cbn [str.title_from list_ascii_of_string].
  destruct (str.islower c) eqn:Hl; [| destruct (str.isupper c) eqn:Hu];
    cbn [list_ascii_of_string]; intros H; apply Forall_cons in H as [Hc Hr];
    apply Forall_cons; (split; [| by eapply IH]).
  - unfold str.isalpha. rewrite Hl. apply orb_true_r.
  - unfold str.isalpha. by rewrite Hu.
  - done.
Qed.

Lemma letters_lower (s : string) : letters (str.lower s) -> letters s.
Proof.
  induction s as [| c r IH]; [done |]. cbn [str.lower list_ascii_of_string].
  intros H. apply Forall_cons in H as [Hc Hr]. apply Forall_cons.
  split; [by rewrite isalpha_to_lower in Hc | by apply IH].
Qed.

Lemma letters_capitalize (s : string) : letters (str.capitalize s) -> letters s.
Proof.
  destruct s as [| c r]; [done |]. cbn [str.capitalize list_ascii_of_string].
  intros H. apply Forall_cons in H as [Hc Hr]. apply Forall_cons.
  split; [by rewrite isalpha_to_upper in Hc | by apply letters_lower].
Qed.

Lemma letters_day_name (day : string) : In day datetime.day_names -> letters day.
Proof.
  simpl. intros H.
  repeat (destruct H as [<- | H]; [by repeat constructor |]). done.
Qed.

(** Compared with a day name, the capitalised and the title-cased
    spelling agree. *)
Lemma capitalize_title_day (w day : string) :
  In day datetime.day_names -> str.capitalize w = day <-> str.title w = day.
Proof.
  intros Hday. pose proof (letters_day_name day Hday) as Hl. unfold str.title.
  split; intros H; rewrite <- H in Hl.
  - apply letters_capitalize in Hl. by rewrite title_from_letters.
  - apply letters_title_from in Hl. by rewrite title_from_letters in H.
Qed.

(** [count_line] looks at the stripped line only. *)
Lemma count_line_strip (l l' wd : string) (fmts : list string) (count : nat) :
  str.strip l = str.strip l' ->
  count_line l wd fmts count = count_line l' wd fmts count.
Proof.
  intros H. induction fmts as [| fmt rest IH]; simpl; [done |].
  rewrite H. by destruct (datetime.strptime _ _).
Qed.

Lemma count_lines_strip (wd : string) (ls ls' : list string) (count : nat) :
  map str.strip ls = map str.strip ls' ->
  fold_left (fun count line => count_line line wd formats count) ls count
  = fold_left (fun count line => count_line line wd formats count) ls' count.
Proof.
  revert ls' count.
  induction ls as [| l ls IH]; intros [| l' ls'] count; cbn [fold_left map]; try done.
  intros [= Hl Hls]. rewrite (count_line_strip l l' wd formats count Hl). by apply IH.
Qed.

(** What [count_weekdays] does when the input is a readable file and the
    output is not a directory. *)
Lemma count_weekdays_run (files : gmap string node) (tr : list event)
    (input wd output content : string) :
  files !! input = Some (File content) ->
  files !! output <> Some Directory ->
  count_weekdays input wd output (mkWorld files tr)
  = (Ok tt,
     mkWorld
       (<[output :=
            File (pretty (fold_left
                            (fun count line =>
                               count_line line (str.capitalize wd) formats count)
                            (str.readlines content) 0%nat))]> files)
       (tr ++ [Open input "r"; Open output "w"])).
Proof.
  intros Hin Hout. unfold count_weekdays, open_read, open_write, bind, log. simpl.
  rewrite Hin. simpl.
  destruct (files !! output) as [[c|]|]; try done; by rewrite <- app_assoc.
Qed.

(** A missing input file: the handler raises and writes nothing. *)
Lemma count_weekdays_missing (files : gmap string node) (tr : list event)
    (input wd output : string) :
  files !! input = None ->
  count_weekdays input wd output (mkWorld files tr)
  = (Raise (Exn FileNotFoundError
              ("[Errno 2] No such file or directory: " +:+ repr input)),
     mkWorld files (tr ++ [Open input "r"])).
Proof.
  intros Hin. unfold count_weekdays, open_read, open_write, bind, log. simpl.
  by rewrite Hin.
Qed.

End Weekdays.

(** C7: the weekday count is called with [Wednesday] when the parsed
    task names no weekday; two weekday strings that differ in letter case
    only make [count_weekdays] do exactly the same, on every file system
    and for every input and output path, [monday] and [Monday] among
    them; any spelling of a day name is capitalised to the name that
    [strftime] produces; and compared with such a name, [capitalize] and
    title case decide alike. *)
Theorem weekday_case_insensitive
    (env : Env) (self : TaskExecutor.t) (desc : option string) (parsed : ParsedTask)
    (w1 w2 input output : string) (world : World) :
  (TaskExecutor.parse_task_description env self desc = Ok parsed ->
   operation parsed = COUNT_WEEKDAYS ->
   weekday (parameters parsed) = None ->
   TaskExecutor.input_path_of parsed <> "" ->
   TaskExecutor.execute env self desc world
   = TaskExecutor.call env self_count_weekdays
       [ TaskExecutor.input_path_of parsed; "Wednesday"; output_file parsed ] world)
  /\ (str.lower w1 = str.lower w2 ->
      TaskExecutor.count_weekdays input w1 output world
      = TaskExecutor.count_weekdays input w2 output world)
  /\ TaskExecutor.count_weekdays input "monday" output world
     = TaskExecutor.count_weekdays input "Monday" output world
  /\ (forall day, In day datetime.day_names ->
        (str.lower w1 = str.lower day -> str.capitalize w1 = day)
        /\ (str.capitalize w1 = day <-> str.title w1 = day)).
Proof.
  split; [| split; [| split; [| intros day Hday; split]]].
  - intros Hparse Hop Hwd Hne.
    rewrite (execute_calls env self desc parsed Hparse self_count_weekdays world);
      [| by rewrite Hop | done].
    by rewrite Hop, Hwd.
  - intros Hcase. unfold TaskExecutor.count_weekdays.
    by rewrite (capitalize_lower w1 w2 Hcase).
  - reflexivity.
  - intros Hcase.
    by rewrite (capitalize_lower w1 day Hcase), capitalize_day_name.
  - by apply capitalize_title_day.
Qed.

Lemma weekday_case_insensitive_witness :
  TaskExecutor.count_weekdays "dates.txt" "wEDNESDAY" "out.txt" Examples.dates_world
  = TaskExecutor.count_weekdays "dates.txt" "Wednesday" "out.txt" Examples.dates_world
  /\ str.capitalize "wEDNESDAY" = "Wednesday".
Proof.
  pose (parsed := mkParsedTask ["dates.txt"] COUNT_WEEKDAYS Examples.no_parameters "out.txt").
  destruct (weekday_case_insensitive
              (Examples.env_with (Decoded Examples.count_request)) Examples.executor
              (Some "count the Wednesdays in dates.txt") parsed
              "wEDNESDAY" "Wednesday" "dates.txt" "out.txt" Examples.dates_world)
    as (_ & Hsame & _ & Hname).
  split.
  - apply Hsame. reflexivity.
  - destruct (Hname "Wednesday") as [Hcap _]; [simpl; tauto |].
    apply Hcap. reflexivity.
Defined.

(** C9: counting Wednesdays over a file whose lines are 2024-01-03,
    2024-01-10 and 2024-01-11 writes exactly [2] to the output file. *)
Theorem count_wednesdays_scenario
    (files : gmap string node) (tr : list event) (input output content : string) :
  files !! input = Some (File content) ->
  map str.strip (str.readlines content) = ["2024-01-03"; "2024-01-10"; "2024-01-11"] ->
  files !! output <> Some Directory ->
  TaskExecutor.count_weekdays input "Wednesday" output (mkWorld files tr)
  = (Ok tt, mkWorld (<[output := File "2"]> files)
              (tr ++ [Open input "r"; Open output "w"])).
Proof.
  intros Hin Hlines Hout.
  rewrite (count_weekdays_run files tr input "Wednesday" output content Hin Hout).
  rewrite (count_lines_strip _ _ ["2024-01-03"; "2024-01-10"; "2024-01-11"] 0%nat)
    by (rewrite Hlines; reflexivity).
  reflexivity.
Qed.

Lemma count_wednesdays_scenario_witness :
  TaskExecutor.count_weekdays "dates.txt" "Wednesday" "out.txt" Examples.dates_world
  = (Ok tt, mkWorld (<["out.txt" := File "2"]> {[ "dates.txt" := File Examples.dates ]})
              [Open "dates.txt" "r"; Open "out.txt" "w"]).
Proof.
  apply (count_wednesdays_scenario {[ "dates.txt" := File Examples.dates ]} []
           "dates.txt" "out.txt" Examples.dates).
  - vm_compute; reflexivity.
  - vm_compute; reflexivity.
  - vm_compute. discriminate.
Defined.

(** ** Reading a file *)

(** C10: without a [path] parameter, or with an empty one, [read_file]
    answers 400 and the world, its trace of opened files included, is
    unchanged.  With a path, the file is opened, and the answer is 404
    when nothing is there, 500 when it cannot be read, 200 with the
    content otherwise. *)
Theorem read_file_missing_path (path : option string) (w : World) :
  (path = None \/ path = Some "" ->
   read_file path w = (mkResponse 400 [("error", "Missing 'path' parameter")], w))
  /\ (forall p, path = Some p -> p <> "" ->
        trace (snd (read_file path w)) = trace w ++ [Open p "r"]
        /\ status_code (fst (read_file path w)) <> 400
        /\ (fs w !! p = None ->
            fst (read_file path w) = mkResponse 404 [("error", "File not found")])
        /\ (fs w !! p = Some Directory ->
            status_code (fst (read_file path w)) = 500)
        /\ (forall content, fs w !! p = Some (File content) ->
            fst (read_file path w) = mkResponse 200 [("content", content)])).
Proof.
  split.
  - by intros [-> | ->].
  - intros p -> Hne. unfold read_file, truthy. simpl.
    rewrite bool_decide_eq_false_2 by done. simpl.
    unfold open_read, bind, log. simpl.
    destruct (fs w !! p) as [[content|]|]; simpl; repeat split; try done.
    by intros content' [= ->].
Qed.

Lemma read_file_missing_path_witness :
  read_file None Examples.dates_world
  = (mkResponse 400 [("error", "Missing 'path' parameter")], Examples.dates_world)
  /\ read_file (Some "") Examples.dates_world
     = (mkResponse 400 [("error", "Missing 'path' parameter")], Examples.dates_world)
  /\ fst (read_file (Some "nothing.txt") Examples.dates_world)
     = mkResponse 404 [("error", "File not found")].
Proof.
  destruct (read_file_missing_path None Examples.dates_world) as [Hnone _].
  destruct (read_file_missing_path (Some "") Examples.dates_world) as [Hempty _].
  destruct (read_file_missing_path (Some "nothing.txt") Examples.dates_world) as [_ Hpath].
  split; [apply Hnone; by left |].
  split; [apply Hempty; by right |].
  destruct (Hpath "nothing.txt") as (_ & _ & H404 & _); [reflexivity | discriminate |].
  apply H404. vm_compute; reflexivity.
Defined.

(** * Further properties *)

(** ** The registry, continued *)

(** X2: of two updates of one task the later one decides; the earlier
    one leaves no mark. *)
Theorem update_task_last_wins
    (tasks : gmap string TaskRecord) (id st1 st2 : string) (err1 err2 : option string) :
  TaskManager.update_task id st2 err2 (TaskManager.update_task id st1 err1 tasks)
  = TaskManager.update_task id st2 err2 tasks.
Proof.
  unfold TaskManager.update_task.
  destruct (tasks !! id) as [r|] eqn:H; [| by rewrite H].
  rewrite lookup_insert_eq. simpl. apply insert_insert_eq.
Qed.

(** X3: updates of two different tasks can be made in either order. *)
Theorem update_task_commute
    (tasks : gmap string TaskRecord) (id1 id2 st1 st2 : string) (err1 err2 : option string) :
  id1 <> id2 ->
  TaskManager.update_task id1 st1 err1 (TaskManager.update_task id2 st2 err2 tasks)
  = TaskManager.update_task id2 st2 err2 (TaskManager.update_task id1 st1 err1 tasks).
Proof.
  intros Hne. unfold TaskManager.update_task.
  destruct (tasks !! id1) as [r1|] eqn:H1, (tasks !! id2) as [r2|] eqn:H2;
    rewrite ?lookup_insert_ne, ?H1, ?H2 by done; try done.
  by apply insert_insert_ne.
Qed.

Lemma update_task_commute_witness :
  TaskManager.update_task "t1" "error" (Some "late") 
    (TaskManager.update_task "t2" "completed" None MoreExamples.two_tasks)
  = TaskManager.update_task "t2" "completed" None
      (TaskManager.update_task "t1" "error" (Some "late") MoreExamples.two_tasks).
Proof. apply update_task_commute. discriminate. Defined.

(** X4: a task that is created and then updated reads back with the
    status and error of the update and the output path of the creation,
    whatever the registry held under that id before. *)
Theorem create_update_get
    (tasks : gmap string TaskRecord) (id path st : string) (err : option string) :
  TaskManager.get_task id
    (TaskManager.update_task id st err (TaskManager.create_task id path tasks))
  = Some (mkTaskRecord st path err).
Proof.
  unfold TaskManager.get_task, TaskManager.update_task, TaskManager.create_task.
  rewrite lookup_insert_eq. simpl. apply lookup_insert_eq.
Qed.

(** ** The constructor *)

(** X5: [TaskExecutor(token)] succeeds exactly when the argument or,
    failing that, the environment holds a non-empty token; the executor
    then carries that token, the argument before the environment, and a
    token that is never empty.  Otherwise it raises the [ValueError] about
    the missing token. *)
Theorem init_token (env : Env) (token : option string) :
  (forall self, TaskExecutor.init env token = Ok self ->
     TaskExecutor.api_token self <> ""
     /\ TaskExecutor.base_url self = "https://aiproxy.sanand.workers.dev/openai/v1/"
     /\ (TaskExecutor.api_token self = or_else token (default "" (getenv_API_TOKEN env))))
  /\ (forall e, TaskExecutor.init env token = Raise e ->
        or_else token (default "" (getenv_API_TOKEN env)) = ""
        /\ e = Exn ValueError
                 "Missing AIPROXY_TOKEN. Get it from https://aiproxy.sanand.workers.dev/").
Proof.
  unfold TaskExecutor.init, or_else, truthy.
  split; intros x H;
    destruct token as [s|]; destruct (getenv_API_TOKEN env) as [s'|]; simpl in *;
    repeat match goal with
           | H : context [bool_decide (?a = "")] |- _ =>
               destruct (bool_decide_reflect (a = "")); simpl in H
           end;
    simplify_eq; simpl; rewrite ?bool_decide_eq_false_2 by done; done.
Qed.

Lemma init_token_witness :
  TaskExecutor.api_token Examples.executor = "token"
  /\ or_else (Some "") (default "" (getenv_API_TOKEN MoreExamples.env_without_token)) = "".
Proof.
  destruct (init_token (Examples.env_with (ConnectionFailed "down")) (Some "")) as [Hok _].
  destruct (init_token MoreExamples.env_without_token (Some "")) as [_ Hraise].
  split.
  - destruct (Hok Examples.executor) as (_ & _ & Htoken); [reflexivity |]. exact Htoken.
  - destruct (Hraise (Exn ValueError
               "Missing AIPROXY_TOKEN. Get it from https://aiproxy.sanand.workers.dev/"))
      as [Hempty _]; [reflexivity |]. exact Hempty.
Defined.

(** X1: [update_task] never adds or removes a task: the registered ids
    are the same before and after, so an id that is not registered reads
    back as [None] after any update. *)
Theorem update_task_keeps_ids
    (tasks : gmap string TaskRecord) (id id' st : string) (err : option string) :
  dom (TaskManager.update_task id st err tasks) = dom tasks
  /\ (TaskManager.get_task id' tasks = None ->
      TaskManager.get_task id' (TaskManager.update_task id st err tasks) = None).
Proof.
  split; [apply update_task_dom |].
  unfold TaskManager.get_task. intros H.
  apply not_elem_of_dom. rewrite update_task_dom. by apply not_elem_of_dom.
Qed.

Lemma update_task_keeps_ids_witness :
  TaskManager.get_task "t9"
    (TaskManager.update_task "t9" "completed" None MoreExamples.two_tasks) = None.
Proof.
  destruct (update_task_keeps_ids MoreExamples.two_tasks "t9" "t9" "completed" None)
    as [_ H].
  apply H. vm_compute; reflexivity.
Defined.

(** ** The parser, continued *)

Section ParserMore.

Import TaskExecutor.

Local Abbreviation declared k :=
  (k = "weekday" \/ k = "script_url" \/ k = "llm_instruction").

Lemma lookup_absent (k : string) (kw : list (string * string)) :
  k ∉ kw.*1 -> Contacts.lookup k kw = None.
Proof.
  induction kw as [| [k' v] r IH]; [done |]. simpl. intros H.
  apply not_elem_of_cons in H as [Hne Hr].
  rewrite bool_decide_eq_false_2 by done. by apply IH.
Qed.

(** Declared keywords fill the dataclass: each field is the value given
    for its name, or what it was. *)
Lemma TaskParameters_init_declared (kw : list (string * string)) (acc : TaskParameters) :
  NoDup kw.*1 ->
  (forall k, k ∈ kw.*1 -> declared k) ->
  TaskParameters_init kw acc
  = Ok (mkTaskParameters
          (from_option Some (weekday acc) (Contacts.lookup "weekday" kw))
          (from_option Some (script_url acc) (Contacts.lookup "script_url" kw))
          (from_option Some (llm_instruction acc) (Contacts.lookup "llm_instruction" kw))).
Proof.
  revert acc. induction kw as [| [k v] r IH]; intros acc Hnd Hk; [by destruct acc |].
  apply NoDup_cons in Hnd as [Hfresh Hnd]. simpl in Hfresh.
  assert (Hr : forall k', k' ∈ r.*1 -> declared k').
  { intros k' Hin. apply Hk. by right. }
  destruct (Hk k) as [-> | [-> | ->]]; [by left | | |];
    simpl; rewrite (IH _ Hnd Hr); simpl; by rewrite (lookup_absent _ _ Hfresh).
Qed.

(** A keyword that is not declared stops the constructor. *)
Lemma TaskParameters_init_undeclared (kw : list (string * string)) (acc : TaskParameters) :
  (exists k, k ∈ kw.*1 /\ ~ declared k) ->
  exists m, TaskParameters_init kw acc = Raise (Exn TypeError m).
Proof.
  revert acc. induction kw as [| [k v] r IH]; intros acc (k0 & Hin & Hno).
  - by apply elem_of_nil in Hin.
  - simpl. repeat case_bool_decide; subst;
      try (apply IH; exists k0; split; [| done];
           apply elem_of_cons in Hin as [-> | Hin]; [| done]; destruct Hno; tauto).
    by eexists.
Qed.

End ParserMore.

(** X6: a reply whose arguments name a member of the enumeration by its
    value, give an output file and use only the three declared parameter
    names is parsed into the task it describes: the input files as given
    (none when the key is absent), that member, the parameters by name
    and the output file. *)
Theorem parse_well_formed
    (env : Env) (self : TaskExecutor.t) (desc : option string)
    (arguments : Arguments) (op : OperationType) (out : string) :
  requests_post env (TaskExecutor.base_url self +:+ "chat/completions")
    (TaskExecutor.api_token self) desc = Decoded arguments ->
  arg_operation arguments = Some (value op) ->
  arg_output_file arguments = Some out ->
  NoDup (default [] (arg_parameters arguments)).*1 ->
  (forall k, k ∈ (default [] (arg_parameters arguments)).*1 ->
     k = "weekday" \/ k = "script_url" \/ k = "llm_instruction") ->
  TaskExecutor.parse_task_description env self desc
  = Ok (mkParsedTask
          (default [] (arg_input_files arguments)) op
          (mkTaskParameters
             (Contacts.lookup "weekday" (default [] (arg_parameters arguments)))
             (Contacts.lookup "script_url" (default [] (arg_parameters arguments)))
             (Contacts.lookup "llm_instruction" (default [] (arg_parameters arguments))))
          out).
Proof.
  intros Hpost Hop Hout Hnd Hk.
  unfold TaskExecutor.parse_task_description. rewrite Hpost.
  unfold TaskExecutor.build, TaskExecutor.getitem. rewrite Hop, Hout. simpl.
  rewrite OperationType_of_value_value. simpl.
  rewrite (TaskParameters_init_declared _ _ Hnd Hk). simpl.
  by repeat destruct (Contacts.lookup _ _).
Qed.

Lemma parse_well_formed_witness :
  TaskExecutor.parse_task_description
    (Examples.env_with (Decoded MoreExamples.monday_request))
    Examples.executor (Some "count the Mondays")
  = Ok (mkParsedTask ["dates.txt"] COUNT_WEEKDAYS
          (mkTaskParameters (Some "monday") None None) "out.txt").
Proof.
  apply (parse_well_formed (Examples.env_with (Decoded MoreExamples.monday_request))
           Examples.executor (Some "count the Mondays") MoreExamples.monday_request
           COUNT_WEEKDAYS "out.txt").
  - reflexivity.
  - reflexivity.
  - reflexivity.
  - simpl. apply NoDup_singleton.
  - simpl. intros k Hk. apply list_elem_of_singleton in Hk. by left.
Defined.

(** X7: no [KeyError] and no [HTTPError] ever leaves the parser: a key
    missing anywhere in the reply comes out as the [RuntimeError]
    [Malformed API response] naming the key, an error status as the
    [RuntimeError] [AI Proxy error] carrying the response text. *)
Theorem parse_translates
    (env : Env) (self : TaskExecutor.t) (desc : option string) :
  (forall e, TaskExecutor.parse_task_description env self desc = Raise e ->
     cls e <> KeyError /\ cls e <> HTTPError)
  /\ (forall k,
        requests_post env (TaskExecutor.base_url self +:+ "chat/completions")
          (TaskExecutor.api_token self) desc = Undecodable (MissingKey k) ->
        TaskExecutor.parse_task_description env self desc
        = Raise (Exn RuntimeError ("Malformed API response: '" +:+ k +:+ "'")))
  /\ (forall text,
        requests_post env (TaskExecutor.base_url self +:+ "chat/completions")
          (TaskExecutor.api_token self) desc = StatusError text ->
        TaskExecutor.parse_task_description env self desc
        = Raise (Exn RuntimeError ("AI Proxy error: " +:+ text))).
Proof.
  split; [intros e; apply parse_never_raises_KeyError |].
  split.
  - intros k H. unfold TaskExecutor.parse_task_description. by rewrite H.
  - intros text. apply parse_status_error.
Qed.

Lemma parse_translates_witness :
  TaskExecutor.parse_task_description
    (Examples.env_with (Undecodable (MissingKey "choices")))
    Examples.executor (Some "anything")
  = Raise (Exn RuntimeError "Malformed API response: 'choices'")
  /\ TaskExecutor.parse_task_description
       (Examples.env_with (StatusError "quota exceeded"))
       Examples.executor (Some "anything")
     = Raise (Exn RuntimeError "AI Proxy error: quota exceeded").
Proof.
  destruct (parse_translates (Examples.env_with (Undecodable (MissingKey "choices")))
              Examples.executor (Some "anything")) as (_ & Hkey & _).
  destruct (parse_translates (Examples.env_with (StatusError "quota exceeded"))
              Examples.executor (Some "anything")) as (_ & _ & Hstatus).
  split; [apply (Hkey "choices") | apply (Hstatus "quota exceeded")]; reflexivity.
Defined.

(** X8: whatever the parser returns was in the reply: the service
    answered with decodable arguments, the operation returned is the
    member whose value they name, the output file is theirs, and the
    input files are theirs or none. *)
Theorem parse_result_is_decoded
    (env : Env) (self : TaskExecutor.t) (desc : option string) (parsed : ParsedTask) :
  TaskExecutor.parse_task_description env self desc = Ok parsed ->
  exists arguments,
    requests_post env (TaskExecutor.base_url self +:+ "chat/completions")
      (TaskExecutor.api_token self) desc = Decoded arguments
    /\ arg_operation arguments = Some (value (operation parsed))
    /\ arg_output_file arguments = Some (output_file parsed)
    /\ input_files parsed = default [] (arg_input_files arguments).
Proof.
  unfold TaskExecutor.parse_task_description.
  destruct (requests_post _ _ _ _) as [m|text|f|arguments]; try discriminate.
  - intros H. apply except_KeyError_ok in H. discriminate.
  - intros H. apply except_KeyError_ok, build_inv in H. by exists arguments.
Qed.

Lemma parse_result_is_decoded_witness :
  exists arguments,
    Decoded Examples.count_request = Decoded arguments
    /\ arg_operation arguments = Some "count_weekdays"
    /\ arg_output_file arguments = Some "out.txt"
    /\ ["dates.txt"] = default [] (arg_input_files arguments).
Proof.
  apply (parse_result_is_decoded (Examples.env_with (Decoded Examples.count_request))
           Examples.executor (Some "count the Wednesdays")
           (mkParsedTask ["dates.txt"] COUNT_WEEKDAYS Examples.no_parameters "out.txt")).
  vm_compute; reflexivity.
Defined.

(** X9: arguments without [output_file], otherwise in order, raise the
    [RuntimeError] [Malformed API response: 'output_file']; arguments
    without [operation] raise it for ['operation'], whether the output
    file is there or not. *)
Theorem parse_missing_key
    (env : Env) (self : TaskExecutor.t) (desc : option string) (arguments : Arguments) :
  requests_post env (TaskExecutor.base_url self +:+ "chat/completions")
    (TaskExecutor.api_token self) desc = Decoded arguments ->
  (arg_operation arguments = None ->
   TaskExecutor.parse_task_description env self desc
   = Raise (Exn RuntimeError "Malformed API response: 'operation'"))
  /\ (forall op,
        arg_operation arguments = Some (value op) ->
        NoDup (default [] (arg_parameters arguments)).*1 ->
        (forall k, k ∈ (default [] (arg_parameters arguments)).*1 ->
           k = "weekday" \/ k = "script_url" \/ k = "llm_instruction") ->
        arg_output_file arguments = None ->
        TaskExecutor.parse_task_description env self desc
        = Raise (Exn RuntimeError "Malformed API response: 'output_file'")).
Proof.
  intros Hpost. split; [by apply parse_missing_operation |].
  intros op Hop Hnd Hk Hout.
  unfold TaskExecutor.parse_task_description. rewrite Hpost.
  unfold TaskExecutor.build, TaskExecutor.getitem. rewrite Hop, Hout. simpl.
  rewrite OperationType_of_value_value. simpl.
  by rewrite (TaskParameters_init_declared _ _ Hnd Hk).
Qed.

Lemma parse_missing_key_witness :
  TaskExecutor.parse_task_description
    (Examples.env_with (Decoded MoreExamples.no_output_request))
    Examples.executor (Some "sort the contacts")
  = Raise (Exn RuntimeError "Malformed API response: 'output_file'").
Proof.
  destruct (parse_missing_key (Examples.env_with (Decoded MoreExamples.no_output_request))
              Examples.executor (Some "sort the contacts") MoreExamples.no_output_request)
    as [_ Hout]; [reflexivity |].
  apply (Hout SORT_JSON); [reflexivity | apply NoDup_nil_2 | | reflexivity].
  intros k Hk. by apply elem_of_nil in Hk.
Defined.

(** X10: a parameter name the dataclass does not declare makes the
    parser raise a [TypeError], untranslated, however well formed the
    rest of the arguments is. *)
Theorem parse_undeclared_parameter
    (env : Env) (self : TaskExecutor.t) (desc : option string)
    (arguments : Arguments) (op : OperationType) (k : string) :
  requests_post env (TaskExecutor.base_url self +:+ "chat/completions")
    (TaskExecutor.api_token self) desc = Decoded arguments ->
  arg_operation arguments = Some (value op) ->
  k ∈ (default [] (arg_parameters arguments)).*1 ->
  k <> "weekday" -> k <> "script_url" -> k <> "llm_instruction" ->
  exists m, TaskExecutor.parse_task_description env self desc = Raise (Exn TypeError m).
Proof.
  intros Hpost Hop Hin H1 H2 H3.
  destruct (TaskParameters_init_undeclared (default [] (arg_parameters arguments))
              (mkTaskParameters None None None)) as [m Hm].
  { exists k. split; [done | tauto]. }
  exists m. unfold TaskExecutor.parse_task_description. rewrite Hpost.
  unfold TaskExecutor.build, TaskExecutor.getitem. rewrite Hop. simpl.
  rewrite OperationType_of_value_value. simpl. by rewrite Hm.
Qed.

Lemma parse_undeclared_parameter_witness :
  exists m,
    TaskExecutor.parse_task_description
      (Examples.env_with (Decoded MoreExamples.odd_parameter_request))
      Examples.executor (Some "sort the contacts, in red")
    = Raise (Exn TypeError m).
Proof.
  apply (parse_undeclared_parameter
           (Examples.env_with (Decoded MoreExamples.odd_parameter_request))
           Examples.executor (Some "sort the contacts, in red")
           MoreExamples.odd_parameter_request SORT_JSON "colour");
    [reflexivity | reflexivity | | discriminate | discriminate | discriminate].
  simpl. by apply list_elem_of_singleton.
Defined.

(** ** The weekday count, continued *)

Section WeekdaysMore.

Import TaskExecutor.

Lemma strftime_A_day (dt : datetime.t) : In (datetime.strftime_A dt) datetime.day_names.
Proof.
  unfold datetime.strftime_A, datetime.weekday.
  pose proof (Z.mod_pos_bound (datetime.toordinal dt + 6) 7 eq_refl) as Hb.
  assert (Hn : (Z.to_nat ((datetime.toordinal dt + 6) mod 7) < 7)%nat) by lia.
  destruct (Z.to_nat _) as [| [| [| [| [| [| [| n]]]]]]]; simpl; try tauto. lia.
Qed.

(** One line adds at most one to the count, and nothing when the
    weekday asked for is no day name. *)
Lemma count_line_bounds (line wd : string) (fmts : list string) (count : nat) :
  (count <= count_line line wd fmts count <= S count)%nat
  /\ ((forall day, In day datetime.day_names -> wd <> day) ->
      count_line line wd fmts count = count).
Proof.
  induction fmts as [| fmt rest IH]; simpl; [split; [lia | done] |].
  destruct (datetime.strptime _ _) as [dt|]; [| exact IH].
  case_bool_decide as Hd; split; try lia; try done.
  intros Hno. destruct (Hno (datetime.strftime_A dt)); [apply strftime_A_day | done].
Qed.

Lemma count_lines_bounds (wd : string) (ls : list string) (count : nat) :
  (fold_left (fun count line => count_line line wd formats count) ls count
   <= count + length ls)%nat
  /\ ((forall day, In day datetime.day_names -> wd <> day) ->
      fold_left (fun count line => count_line line wd formats count) ls count = count).
Proof.
  revert count. induction ls as [| l ls IH]; intros count; cbn [fold_left length].
  - split; [lia | done].
  - destruct (count_line_bounds l wd formats count) as [Hb Hz].
    destruct (IH (count_line l wd formats count)) as [IHb IHz].
    split; [lia |]. intros Hno. rewrite IHz by done. by apply Hz.
Qed.

End WeekdaysMore.

(** X11: [count_weekdays] changes no path but its output file, whether
    it succeeds or raises. *)
Theorem count_weekdays_frame (input wd output p : string) (w : World) :
  p <> output ->
  fs (snd (TaskExecutor.count_weekdays input wd output w)) !! p = fs w !! p.
Proof.
  intros Hne. unfold TaskExecutor.count_weekdays, open_read, open_write, bind, log. simpl.
  destruct (fs w !! input) as [[content|]|]; simpl; try done.
  destruct (fs w !! output) as [[c|]|]; simpl; try done; by rewrite lookup_insert_ne.
Qed.

Lemma count_weekdays_frame_witness :
  fs (snd (TaskExecutor.count_weekdays "dates.txt" "Wednesday" "out.txt"
             Examples.dates_world)) !! "dates.txt"
  = fs Examples.dates_world !! "dates.txt".
Proof. apply count_weekdays_frame. discriminate. Defined.



(** X13: on a readable input, with an output path that is no directory,
    [count_weekdays] writes the decimal form of a number that is at most
    the number of lines of the input, and that is 0 when the weekday asked
    for, a string of ASCII characters, is once capitalised not one of the
    seven day names. *)
Theorem count_weekdays_bound (input wd output content : string) (w : World) :
  fs w !! input = Some (File content) ->
  fs w !! output <> Some Directory ->
  exists n : nat,
    TaskExecutor.count_weekdays input wd output w
    = (Ok tt, mkWorld (<[output := File (pretty n)]> (fs w))
                (trace w ++ [Open input "r"; Open output "w"]))
    /\ (n <= length (str.readlines content))%nat
    /\ (Forall (fun c => (str.code c < 128)%N) (list_ascii_of_string wd) ->
        (forall day, In day datetime.day_names -> str.capitalize wd <> day) ->
        n = 0%nat).
Proof.
  intros Hin Hout. destruct w as [files tr]. simpl in *.
  eexists. split; [by apply count_weekdays_run |].
  destruct (count_lines_bounds (str.capitalize wd) (str.readlines content) 0) as [Hb Hz].
  split; [lia | intros _; exact Hz].
Qed.

Lemma count_weekdays_bound_witness :
  exists n : nat,
    TaskExecutor.count_weekdays "dates.txt" "Wed" "out.txt" Examples.dates_world
    = (Ok tt, mkWorld (<["out.txt" := File (pretty n)]> (fs Examples.dates_world))
                (trace Examples.dates_world ++ [Open "dates.txt" "r"; Open "out.txt" "w"]))
    /\ n = 0%nat.
Proof.
  destruct (count_weekdays_bound "dates.txt" "Wed" "out.txt" Examples.dates
              Examples.dates_world) as (n & Hrun & _ & Hzero).
  - vm_compute; reflexivity.
  - vm_compute. discriminate.
  - exists n. split; [exact Hrun |]. apply Hzero.
    + repeat constructor.
    + simpl. intros day H.
      repeat (destruct H as [<- | H]; [discriminate |]). done.
Defined.

(** X14: white space around the lines does not count: two inputs whose
    lines are the same once stripped lead to the same output file. *)
Theorem count_weekdays_ignores_whitespace
    (input wd output c1 c2 : string) (w1 w2 : World) :
  fs w1 !! input = Some (File c1) ->
  fs w2 !! input = Some (File c2) ->
  fs w1 !! output <> Some Directory ->
  fs w2 !! output <> Some Directory ->
  map str.strip (str.readlines c1) = map str.strip (str.readlines c2) ->
  fs (snd (TaskExecutor.count_weekdays input wd output w1)) !! output
  = fs (snd (TaskExecutor.count_weekdays input wd output w2)) !! output.
Proof.
  intros Hin1 Hin2 Hout1 Hout2 Hlines.
  destruct w1 as [files1 tr1], w2 as [files2 tr2]. simpl in *.
  rewrite (count_weekdays_run files1 tr1 input wd output c1 Hin1 Hout1).
  rewrite (count_weekdays_run files2 tr2 input wd output c2 Hin2 Hout2).
  cbn [snd fs]. rewrite !lookup_insert_eq.
  by rewrite (count_lines_strip _ _ _ 0%nat Hlines).
Qed.

Lemma count_weekdays_ignores_whitespace_witness :
  fs (snd (TaskExecutor.count_weekdays "dates.txt" "Wednesday" "out.txt"
             Examples.dates_world)) !! "out.txt"
  = fs (snd (TaskExecutor.count_weekdays "dates.txt" "Wednesday" "out.txt"
               (mkWorld {[ "dates.txt" :=
                             File ("  2024-01-03 " +:+ String "010"
                                     ("2024-01-10" +:+ String "010" " 2024-01-11")) ]} [])))
      !! "out.txt".
Proof.
  apply (count_weekdays_ignores_whitespace "dates.txt" "Wednesday" "out.txt"
           Examples.dates
           ("  2024-01-03 " +:+ String "010" ("2024-01-10" +:+ String "010" " 2024-01-11"))).
  - vm_compute; reflexivity.
  - vm_compute; reflexivity.
  - vm_compute. discriminate.
  - vm_compute. discriminate.
  - vm_compute; reflexivity.
Defined.

(** ** Reading a file, continued *)

(** X16: [read_file] never changes a file, whatever it is asked for; it
    opens the path it was given and nothing else, and answers with one of
    the four codes 200, 400, 404, 500. *)
Theorem read_file_preserves_files (path : option string) (w : World) :
  fs (snd (read_file path w)) = fs w
  /\ (trace (snd (read_file path w)) = trace w
      \/ exists p, path = Some p /\ trace (snd (read_file path w)) = trace w ++ [Open p "r"])
  /\ In (status_code (fst (read_file path w))) [200; 400; 404; 500].
Proof.
  unfold read_file, truthy.
  destruct path as [p|]; simpl; [| by repeat split; [left | right; left]].
  case_bool_decide as Hp; simpl; [by repeat split; [left | right; left] |].
  unfold open_read, bind, log. simpl.
  destruct (fs w !! p) as [[content|]|]; simpl;
    (split; [done |]); (split; [right; by exists p |]); tauto.
Qed.

(** X15: what [count_weekdays] has written, [read_file] gives back: after
    a count that succeeds, reading the output path answers 200 with the
    decimal count as content. *)
Theorem count_then_read (input wd output content : string) (w : World) :
  fs w !! input = Some (File content) ->
  fs w !! output <> Some Directory ->
  output <> "" ->
  exists n : nat,
    (n <= length (str.readlines content))%nat
    /\ fst (read_file (Some output)
              (snd (TaskExecutor.count_weekdays input wd output w)))
       = mkResponse 200 [("content", pretty n)].
Proof.
  intros Hin Hout Hne. destruct w as [files tr]. simpl in *.
  destruct (count_lines_bounds (str.capitalize wd) (str.readlines content) 0) as [Hb _].
  eexists. split; [exact Hb |].
  rewrite (count_weekdays_run files tr input wd output content Hin Hout).
  unfold read_file, truthy. cbn [snd default].
  rewrite bool_decide_eq_false_2 by done. cbn [negb].
  unfold open_read, bind, log. cbn [fs fst snd]. by rewrite lookup_insert_eq.
Qed.

Lemma count_then_read_witness :
  exists n : nat,
    (n <= length (str.readlines Examples.dates))%nat
    /\ fst (read_file (Some "out.txt")
              (snd (TaskExecutor.count_weekdays "dates.txt" "Wednesday" "out.txt"
                      Examples.dates_world)))
       = mkResponse 200 [("content", pretty n)].
Proof.
  apply (count_then_read "dates.txt" "Wednesday" "out.txt" Examples.dates
           Examples.dates_world).
  - vm_compute; reflexivity.
  - vm_compute. discriminate.
  - discriminate.
Defined.

(** ** Dispatch, continued *)

Section Dirname.

Lemma dropwhile_all (p : ascii -> bool) (l : list ascii) :
  Forall (fun c => p c = true) l -> str.dropwhile p l = [].
Proof.
  induction l as [| c r IH]; [done |]. intros H.
  apply Forall_cons in H as [Hc Hr]. simpl. rewrite Hc. by apply IH.
Qed.

Lemma dropwhile_app_stop (p : ascii -> bool) (l r : list ascii) (c : ascii) :
  Forall (fun c => p c = true) l -> p c = false ->
  str.dropwhile p (l ++ c :: r) = c :: r.
Proof.
  intros Hl Hc. induction l as [| x l IH]; simpl; [by rewrite Hc |].
  apply Forall_cons in Hl as [Hx Hl]. rewrite Hx. by apply IH.
Qed.

Lemma list_ascii_of_string_app (s t : string) :
  list_ascii_of_string (s +:+ t) = list_ascii_of_string s ++ list_ascii_of_string t.
Proof. induction s as [| c s IH]; simpl; [done | by rewrite IH]. Qed.

Lemma not_sep_all (f : string) :
  ~ In posixpath.sep (list_ascii_of_string f) ->
  Forall (fun c => posixpath.not_sep c = true) (rev (list_ascii_of_string f)).
Proof.
  intros H. apply Forall_forall. intros c Hc.
  apply list_elem_of_In, in_rev in Hc.
  unfold posixpath.not_sep, posixpath.is_sep.
  destruct (Ascii.eqb_spec c posixpath.sep) as [-> | Hne]; [done | done].
Qed.

(** A name without a slash has the empty directory name. *)
Lemma dirname_bare (f : string) :
  ~ In posixpath.sep (list_ascii_of_string f) -> posixpath.dirname f = "".
Proof.
  intros H. unfold posixpath.dirname.
  by rewrite (dropwhile_all _ _ (not_sep_all f H)).
Qed.

(** The directory name of [d/f] is [d], for a [d] that is not empty and
    does not end in a slash and an [f] without one. *)
Lemma dirname_file_in (d f : string) :
  d <> "" -> posixpath.endswith_sep d = false ->
  ~ In posixpath.sep (list_ascii_of_string f) ->
  posixpath.dirname (d +:+ "/" +:+ f) = d.
Proof.
  intros Hd Hend Hf. unfold posixpath.dirname.
  rewrite !list_ascii_of_string_app. simpl. rewrite rev_app_distr. simpl.
  rewrite <- app_assoc. simpl.
  rewrite (dropwhile_app_stop posixpath.not_sep _ _ _ (not_sep_all f Hf)) by done.
  simpl. unfold posixpath.endswith_sep in Hend.
  destruct (rev (list_ascii_of_string d)) as [| c r] eqn:Hrev.
  - destruct d; [done |]. apply (f_equal (@length ascii)) in Hrev.
    rewrite length_rev in Hrev. discriminate.
  - simpl. rewrite Hend.
    change (rev r ++ [c]) with (rev (c :: r)). rewrite <- Hrev, rev_involutive.
    apply string_of_list_ascii_of_string.
Qed.

End Dirname.

(** X17: what log extraction and markdown indexing are called on when
    the first input file is [d/f] or the bare name [f]: the directory [d]
    in the first case, the empty string in the second. *)
Theorem execute_directory_argument
    (env : Env) (self : TaskExecutor.t) (desc : option string)
    (parsed : ParsedTask) (h : Handler) (w : World) (d f : string) :
  TaskExecutor.parse_task_description env self desc = Ok parsed ->
  dict_get TaskExecutor.handler_map (operation parsed) = Some h ->
  operation parsed = EXTRACT_RECENT_LOGS \/ operation parsed = CREATE_MARKDOWN_INDEX ->
  ~ In posixpath.sep (list_ascii_of_string f) ->
  (f <> "" -> head (input_files parsed) = Some f ->
   TaskExecutor.execute env self desc w
   = TaskExecutor.call env h [ ""; output_file parsed ] w)
  /\ (d <> "" -> posixpath.endswith_sep d = false ->
      head (input_files parsed) = Some (d +:+ "/" +:+ f) ->
      TaskExecutor.execute env self desc w
      = TaskExecutor.call env h [ d; output_file parsed ] w).
Proof.
  intros Hparse Hh Hop Hf.
  assert (Hpath : forall p, head (input_files parsed) = Some p ->
                            TaskExecutor.input_path_of parsed = p).
  { intros p Hp. unfold TaskExecutor.input_path_of.
    destruct (input_files parsed); simpl in Hp; congruence. }
  assert (Hcall : forall p, p <> "" -> head (input_files parsed) = Some p ->
                            TaskExecutor.execute env self desc w
                            = TaskExecutor.call env h
                                [ posixpath.dirname p; output_file parsed ] w).
  { intros p Hne Hp.
    rewrite (execute_calls env self desc parsed Hparse h w Hh)
      by (by rewrite (Hpath p Hp)).
    rewrite (Hpath p Hp). by destruct Hop as [-> | ->]. }
  split.
  - intros Hne Hhead. rewrite (Hcall f Hne Hhead). by rewrite dirname_bare.
  - intros Hd Hend Hhead.
    assert (Hne : d +:+ "/" +:+ f <> "") by (by destruct d).
    rewrite (Hcall _ Hne Hhead). by rewrite dirname_file_in.
Qed.

Lemma execute_directory_argument_witness :
  TaskExecutor.execute (Examples.env_with (Decoded MoreExamples.nested_log_request))
    Examples.executor (Some "collect the recent logs") Examples.empty_world
  = TaskExecutor.call (Examples.env_with (Decoded MoreExamples.nested_log_request))
      self_extract_recent_logs [ "logs/today"; "out.txt" ] Examples.empty_world.
Proof.
  pose (parsed := mkParsedTask ["logs/today/app.log"] EXTRACT_RECENT_LOGS
                    Examples.no_parameters "out.txt").
  destruct (execute_directory_argument
              (Examples.env_with (Decoded MoreExamples.nested_log_request))
              Examples.executor (Some "collect the recent logs") parsed
              self_extract_recent_logs Examples.empty_world "logs/today" "app.log")
    as [_ Hin].
  - vm_compute; reflexivity.
  - reflexivity.
  - by left.
  - vm_compute. intros H. repeat (destruct H as [H | H]; [discriminate |]). done.
  - apply Hin; [discriminate | reflexivity | reflexivity].
Defined.

(** X18: the weekday the count is called with: a weekday given as the
    empty string is replaced by [Wednesday], like an absent one; any other
    is passed on as it was written, its case untouched. *)
Theorem execute_weekday_argument
    (env : Env) (self : TaskExecutor.t) (desc : option string)
    (parsed : ParsedTask) (w : World) (s : string) :
  TaskExecutor.parse_task_description env self desc = Ok parsed ->
  operation parsed = COUNT_WEEKDAYS ->
  TaskExecutor.input_path_of parsed <> "" ->
  weekday (parameters parsed) = Some s ->
  TaskExecutor.execute env self desc w
  = TaskExecutor.call env self_count_weekdays
      [ TaskExecutor.input_path_of parsed;
        (if bool_decide (s = "") then "Wednesday" else s);
        output_file parsed ] w.
Proof.
  intros Hparse Hop Hne Hwd.
  rewrite (execute_calls env self desc parsed Hparse self_count_weekdays w);
    [| by rewrite Hop | done].
  by rewrite Hop, Hwd.
Qed.

Lemma execute_weekday_argument_witness :
  TaskExecutor.execute (Examples.env_with (Decoded MoreExamples.empty_weekday_request))
    Examples.executor (Some "count the days") Examples.dates_world
  = TaskExecutor.call (Examples.env_with (Decoded MoreExamples.empty_weekday_request))
      self_count_weekdays [ "dates.txt"; "Wednesday"; "out.txt" ] Examples.dates_world.
Proof.
  apply (execute_weekday_argument
           (Examples.env_with (Decoded MoreExamples.empty_weekday_request))
           Examples.executor (Some "count the days")
           (mkParsedTask ["dates.txt"] COUNT_WEEKDAYS
              (mkTaskParameters (Some "") None None) "out.txt")
           Examples.dates_world "").
  - vm_compute; reflexivity.
  - reflexivity.
  - discriminate.
  - reflexivity.
Defined.

(** X19: [execute] touches nothing before it calls the handler: either
    it raises with the world as it found it, or the first thing it does is
    the call of a handler from the table. *)
Theorem execute_calls_first
    (env : Env) (self : TaskExecutor.t) (desc : option string) (w : World) :
  (exists e, TaskExecutor.execute env self desc w = (Raise e, w))
  \/ (exists h args evs,
        In h (map snd TaskExecutor.handler_map)
        /\ trace (snd (TaskExecutor.execute env self desc w))
           = trace w ++ Call h args :: evs).
Proof.
  destruct (TaskExecutor.parse_task_description env self desc) as [parsed|e] eqn:Hparse.
  - destruct (dict_get TaskExecutor.handler_map (operation parsed)) as [h|] eqn:Hh.
    + destruct (decide (TaskExecutor.input_path_of parsed = "")) as [Hin|Hin].
      * left. eexists. apply execute_no_input with (parsed := parsed); [done | | done].
        by rewrite Hh.
      * right. rewrite (execute_calls env self desc parsed Hparse h w Hh Hin).
        destruct (call_trace env h
                    (if bool_decide (operation parsed = COUNT_WEEKDAYS) then
                       [ TaskExecutor.input_path_of parsed;
                         or_else (weekday (parameters parsed)) "Wednesday";
                         output_file parsed ]
                     else if bool_decide (operation parsed = EXTRACT_RECENT_LOGS)
                             || bool_decide (operation parsed = CREATE_MARKDOWN_INDEX) then
                       [ posixpath.dirname (TaskExecutor.input_path_of parsed);
                         output_file parsed ]
                     else [ TaskExecutor.input_path_of parsed; output_file parsed ]) w)
          as [evs Hevs].
        exists h. eexists. exists evs. split; [| exact Hevs].
        destruct (operation parsed); simpl in Hh; simplify_eq; simpl; tauto.
    + left. eexists. by apply execute_unsupported with (parsed := parsed).
  - left. exists e. by apply execute_parse_error.
Qed.

(** ** The request path, continued *)





(** X22: no accepted task is ever recorded as completed.  When
    [handle_task] has answered 202 and the thread it started has run, the
    record of the task says [error], with the message of the
    [AttributeError] for the method the thread calls and the class does
    not have; the thread has touched no file. *)
Theorem accepted_task_ends_in_error
    (env : Env) (self : TaskExecutor.t) (desc : option string) (uuid : string)
    (st st' : State) (resp : Response) :
  TaskExecutor.init env None = Ok self ->
  handle_task env desc uuid st = (Ok resp, st') ->
  status_code resp = 202 ->
  TaskManager.get_task uuid (tasks (background_task uuid st'))
  = Some (mkTaskRecord "error" (posixpath.join "./task_results" (uuid +:+ ".out"))
            (Some "'TaskExecutor' object has no attribute 'execute_parsed'"))
  /\ world (background_task uuid st') = world st'.
Proof.
  intros Hinit Hview Hcode. unfold handle_task in Hview. rewrite Hinit in Hview.
  destruct (TaskExecutor.execute env self desc (world st)) as [[[]|e] w];
    injection Hview as <- <-; [| discriminate].
  split; [| done].
  rewrite background_task_records_error. cbn [tasks].
  unfold TaskManager.get_task, TaskManager.update_task, TaskManager.create_task.
  rewrite lookup_insert_eq. cbn [output_path]. apply lookup_insert_eq.
Qed.

Lemma accepted_task_ends_in_error_witness :
  TaskManager.get_task "id-1"
    (tasks (background_task "id-1"
              (snd (handle_task (Examples.env_with (Decoded Examples.count_request))
                      (Some "count the Wednesdays") "id-1" Examples.dates_state))))
  = Some (mkTaskRecord "error" "./task_results/id-1.out"
            (Some "'TaskExecutor' object has no attribute 'execute_parsed'")).
Proof.
  destruct (handle_task (Examples.env_with (Decoded Examples.count_request))
              (Some "count the Wednesdays") "id-1" Examples.dates_state)
    as [r st'] eqn:Hview.
  assert (Hr : r = Ok (mkResponse 202 [("task_id", "id-1")])).
  { apply (f_equal fst) in Hview. vm_compute in Hview. by symmetry. }
  subst r.
  destruct (accepted_task_ends_in_error
              (Examples.env_with (Decoded Examples.count_request)) Examples.executor
              (Some "count the Wednesdays") "id-1" Examples.dates_state st'
              (mkResponse 202 [("task_id", "id-1")])) as [H _].
  - vm_compute; reflexivity.
  - exact Hview.
  - reflexivity.
  - exact H.
Defined.

(** X23: the background thread of a task changes that task's record
    and nothing else: every other record, the set of registered ids, the
    files, the trace and the list of started threads stay as they were;
    for an id that is not registered it changes nothing at all. *)
Theorem background_task_frame (task_id id' : string) (st : State) :
  world (background_task task_id st) = world st
  /\ started (background_task task_id st) = started st
  /\ dom (tasks (background_task task_id st)) = dom (tasks st)
  /\ (id' <> task_id ->
      TaskManager.get_task id' (tasks (background_task task_id st))
      = TaskManager.get_task id' (tasks st))
  /\ (tasks st !! task_id = None -> background_task task_id st = st).
Proof.
  rewrite background_task_records_error. cbn [world started tasks].
  repeat split.
  - apply update_task_dom.
  - apply update_task_other.
  - intros H. rewrite update_task_unknown by done. by destruct st.
Qed.

Lemma background_task_frame_witness :
  TaskManager.get_task "t1" (tasks (background_task "t2" (mkState Examples.empty_world
                                                       MoreExamples.two_tasks [])))
  = TaskManager.get_task "t1" MoreExamples.two_tasks
  /\ background_task "t9" (mkState Examples.empty_world MoreExamples.two_tasks [])
     = mkState Examples.empty_world MoreExamples.two_tasks [].
Proof.
  destruct (background_task_frame "t2" "t1"
              (mkState Examples.empty_world MoreExamples.two_tasks []))
    as (_ & _ & _ & Hother & _).
  destruct (background_task_frame "t9" "t9"
              (mkState Examples.empty_world MoreExamples.two_tasks []))
    as (_ & _ & _ & _ & Hunknown).
  split; [apply Hother; discriminate | apply Hunknown; vm_compute; reflexivity].
Defined.

(** ** Sorting *)

Section Sorting.

Context {A K : Type} `{EqDecision K} (key : A -> K) (ltk : K -> K -> bool).

Local Abbreviation lt := (fun a b => ltk (key a) (key b)).
Local Abbreviation in_order := (fun a b => ltk (key b) (key a) = false).

Lemma insert_by_perm (x : A) (l : list A) : insert_by lt x l ≡ₚ x :: l.
Proof.
  induction l as [| y r IH]; [done |]. simpl.
  destruct (ltk (key y) (key x)); [| done].
  rewrite IH. apply Permutation_swap.
Qed.

Lemma sorted_by_perm (l : list A) : sorted_by lt l ≡ₚ l.
Proof.
  induction l as [| x r IH]; [done |]. simpl.
  by rewrite insert_by_perm, IH.
Qed.

Hypothesis irrefl : forall k, ltk k k = false.

(** Elements with one key keep the order they came in. *)
Lemma insert_by_filter (k : K) (x : A) (l : list A) :
  filter (fun y => key y = k) (insert_by lt x l) = filter (fun y => key y = k) (x :: l).
Proof.
  induction l as [| y r IH]; [done |]. simpl.
  destruct (ltk (key y) (key x)) eqn:Hlt; [| done].
  rewrite filter_cons, IH, !filter_cons.
  destruct (decide (key y = k)) as [Hy|Hy], (decide (key x = k)) as [Hx|Hx]; try done.
  rewrite Hy, Hx, irrefl in Hlt. discriminate.
Qed.

Lemma sorted_by_stable (k : K) (l : list A) :
  filter (fun y => key y = k) (sorted_by lt l) = filter (fun y => key y = k) l.
Proof.
  induction l as [| x r IH]; [done |]. simpl.
  by rewrite insert_by_filter, !filter_cons, IH.
Qed.

Hypothesis asym : forall a b, ltk a b = true -> ltk b a = false.
Hypothesis le_trans : forall a b c, ltk b a = false -> ltk c b = false -> ltk c a = false.

Lemma insert_by_sorted (x : A) (l : list A) :
  StronglySorted in_order l -> StronglySorted in_order (insert_by lt x l).
Proof.
  induction 1 as [| y r Hr IH Hy]; simpl; [by repeat constructor |].
  destruct (ltk (key y) (key x)) eqn:Hlt.
  - constructor; [done |].
    rewrite (insert_by_perm x r). constructor; [by apply asym | exact Hy].
  - constructor; [by constructor |].
    constructor; [done |].
    eapply Forall_impl; [exact Hy |]. intros z Hz. simpl in *. by eapply le_trans.
Qed.

Lemma sorted_by_sorted (l : list A) : StronglySorted in_order (sorted_by lt l).
Proof.
  induction l as [| x r IH]; simpl; [constructor | by apply insert_by_sorted].
Qed.

End Sorting.

(** *** The order on strings and on pairs of strings *)

Section StringOrder.

Lemma ascii_compare_refl (c : ascii) : Ascii.compare c c = Eq.
Proof. apply N.compare_refl. Qed.

Lemma string_compare_refl (s : string) : String.compare s s = Eq.
Proof. induction s as [| c s IH]; [done |]. simpl. by rewrite ascii_compare_refl. Qed.

Lemma ascii_compare_lt_trans (a b c : ascii) :
  Ascii.compare a b = Lt -> Ascii.compare b c = Lt -> Ascii.compare a c = Lt.
Proof. unfold Ascii.compare. rewrite !N.compare_lt_iff. lia. Qed.

Lemma string_compare_lt_trans (s t u : string) :
  String.compare s t = Lt -> String.compare t u = Lt -> String.compare s u = Lt.
Proof.
  revert t u. induction s as [| a s IH]; intros [| b t] [| c u]; simpl; try done.
  destruct (Ascii.compare a b) eqn:Hab, (Ascii.compare b c) eqn:Hbc; try done.
  - apply Ascii.compare_eq_iff in Hab as ->. apply Ascii.compare_eq_iff in Hbc as ->.
    rewrite ascii_compare_refl. apply IH.
  - apply Ascii.compare_eq_iff in Hab as ->. by rewrite Hbc.
  - apply Ascii.compare_eq_iff in Hbc as <-. by rewrite Hab.
  - by rewrite (ascii_compare_lt_trans a b c Hab Hbc).
Qed.

Lemma ltb_irrefl (s : string) : String.ltb s s = false.
Proof. unfold String.ltb. by rewrite string_compare_refl. Qed.

Lemma ltb_trans (s t u : string) :
  String.ltb s t = true -> String.ltb t u = true -> String.ltb s u = true.
Proof.
  unfold String.ltb.
  destruct (String.compare s t) eqn:Hst; try done.
  destruct (String.compare t u) eqn:Htu; try done.
  by rewrite (string_compare_lt_trans s t u Hst Htu).
Qed.

Lemma ltb_total (s t : string) : String.ltb s t = false -> s = t \/ String.ltb t s = true.
Proof.
  unfold String.ltb. rewrite (String.compare_antisym t s).
  destruct (String.compare s t) eqn:Hst; simpl; try done; [| by right].
  left. by apply String.compare_eq_iff.
Qed.

Lemma key_lt_irrefl (k : string * string) : Contacts.key_lt k k = false.
Proof. unfold Contacts.key_lt. rewrite bool_decide_eq_true_2 by done. apply ltb_irrefl. Qed.

Lemma key_lt_trans (a b c : string * string) :
  Contacts.key_lt a b = true -> Contacts.key_lt b c = true -> Contacts.key_lt a c = true.
Proof.
  destruct a as [a1 a2], b as [b1 b2], c as [c1 c2]. unfold Contacts.key_lt. simpl.
  repeat case_bool_decide; subst; try done; try apply ltb_trans.
  intros Hcb Hbc. pose proof (ltb_trans _ _ _ Hcb Hbc) as Hcc.
  by rewrite ltb_irrefl in Hcc.
Qed.

Lemma key_lt_total (a b : string * string) :
  Contacts.key_lt a b = false -> a = b \/ Contacts.key_lt b a = true.
Proof.
  destruct a as [a1 a2], b as [b1 b2]. unfold Contacts.key_lt. simpl.
  repeat case_bool_decide; subst; try done; intros Hlt;
    apply ltb_total in Hlt as [-> | Hlt]; auto.
Qed.

(** A strict total order gives what the sorting lemmas ask for. *)
Lemma key_lt_asym (a b : string * string) :
  Contacts.key_lt a b = true -> Contacts.key_lt b a = false.
Proof.
  intros H. destruct (Contacts.key_lt b a) eqn:H'; [| done].
  pose proof (key_lt_trans _ _ _ H H') as Hc. by rewrite key_lt_irrefl in Hc.
Qed.

Lemma key_le_trans (a b c : string * string) :
  Contacts.key_lt b a = false -> Contacts.key_lt c b = false -> Contacts.key_lt c a = false.
Proof.
  intros Hba Hcb. destruct (Contacts.key_lt c a) eqn:Hca; [| done].
  apply key_lt_total in Hba as [-> | Hab]; [congruence |].
  apply key_lt_total in Hcb as [-> | Hbc]; [by rewrite (key_lt_asym _ _ Hab) in Hca |].
  pose proof (key_lt_trans _ _ _ (key_lt_trans _ _ _ Hab Hbc) Hca) as Hc.
  by rewrite key_lt_irrefl in Hc.
Qed.

End StringOrder.

(** ** [sort_contacts] *)

Section ContactsFacts.

Import Contacts.

Local Abbreviation named x :=
  (is_Some (lookup "last_name" x) /\ is_Some (lookup "first_name" x)).

Lemma sort_key_named (x : Contact) : named x -> sort_key x = Ok (names x).
Proof.
  intros [[l Hl] [f Hf]]. unfold sort_key, names, TaskExecutor.getitem.
  by rewrite Hl, Hf.
Qed.

Lemma decorate_named (l : list Contact) :
  Forall (fun x => named x) l -> decorate l = Ok (map (fun x => (names x, x)) l).
Proof.
  induction 1 as [| x r Hx Hr IH]; [done |]. simpl.
  by rewrite (sort_key_named x Hx), IH.
Qed.

(** Which key it is: the last name if that is missing, the first name
    if only that is. *)
Lemma sort_key_no_last_name (x : Contact) :
  lookup "last_name" x = None -> sort_key x = Raise (Exn KeyError (repr "last_name")).
Proof. intros H. unfold sort_key, TaskExecutor.getitem. by rewrite H. Qed.

Lemma sort_key_no_first_name (x : Contact) :
  is_Some (lookup "last_name" x) -> lookup "first_name" x = None ->
  sort_key x = Raise (Exn KeyError (repr "first_name")).
Proof. intros [l Hl] H. unfold sort_key, TaskExecutor.getitem. by rewrite Hl, H. Qed.

(** The keys are computed in list order: the first contact whose key
    raises decides, whatever comes after it. *)
Lemma decorate_first_raise (pre post : list Contact) (x : Contact) (e : exn) :
  Forall (fun x => named x) pre -> sort_key x = Raise e ->
  decorate (pre ++ x :: post) = Raise e.
Proof.
  intros Hpre Hx. induction Hpre as [| y r Hy Hr IH]; simpl.
  - by rewrite Hx.
  - by rewrite (sort_key_named y Hy), IH.
Qed.

Lemma insert_decorated (x : Contact) (l : list Contact) :
  insert_by (fun a b => key_lt a.1 b.1) (names x, x) (map (fun x => (names x, x)) l)
  = map (fun x => (names x, x)) (insert_by (fun a b => key_lt (names a) (names b)) x l).
Proof.
  induction l as [| y r IH]; [done |]. simpl.
  destruct (key_lt (names y) (names x)); [| done]. simpl. by rewrite IH.
Qed.

Lemma sorted_decorated (l : list Contact) :
  map snd (sorted_by (fun a b => key_lt a.1 b.1) (map (fun x => (names x, x)) l))
  = sorted_by (fun a b => key_lt (names a) (names b)) l.
Proof.
  assert (H : sorted_by (fun a b => key_lt a.1 b.1) (map (fun x => (names x, x)) l)
              = map (fun x => (names x, x))
                  (sorted_by (fun a b => key_lt (names a) (names b)) l)).
  { induction l as [| x r IH]; [done |]. simpl. by rewrite IH, insert_decorated. }
  rewrite H, map_map. simpl. apply map_id.
Qed.

Lemma sorted_contacts_named (l : list Contact) :
  Forall (fun x => named x) l ->
  sorted_contacts l = Ok (sorted_by (fun a b => key_lt (names a) (names b)) l).
Proof.
  intros H. unfold sorted_contacts. rewrite (decorate_named l H). simpl.
  by rewrite sorted_decorated.
Qed.

End ContactsFacts.

(** X24: [sort_contacts] on a readable file that decodes to contacts
    which all have a last and a first name writes the encoding of a list
    that holds the same contacts, each as often as before; in which no
    contact sorts, by last name and then first name, strictly before one
    that precedes it; and in which contacts with the same two names keep
    the order they had in the file. *)
Theorem sort_contacts_sorts
    (json_load : string -> Res (list Contacts.Contact))
    (json_dump : list Contacts.Contact -> string)
    (input output content : string) (contacts : list Contacts.Contact) (w : World) :
  fs w !! input = Some (File content) ->
  json_load content = Ok contacts ->
  Forall (fun x => is_Some (Contacts.lookup "last_name" x)
                   /\ is_Some (Contacts.lookup "first_name" x)) contacts ->
  fs w !! output <> Some Directory ->
  exists sorted,
    Contacts.sort_contacts json_load json_dump input output w
    = (Ok tt, mkWorld (<[output := File (json_dump sorted)]> (fs w))
                (trace w ++ [Open input "r"; Open output "w"]))
    /\ sorted ≡ₚ contacts
    /\ StronglySorted
         (fun a b => Contacts.key_lt (Contacts.names b) (Contacts.names a) = false) sorted
    /\ forall k, filter (fun x => Contacts.names x = k) sorted
                 = filter (fun x => Contacts.names x = k) contacts.
Proof.
  intros Hin Hload Hnamed Hout.
  exists (sorted_by (fun a b => Contacts.key_lt (Contacts.names a) (Contacts.names b))
            contacts).
  split; [| split; [| split]].
  - unfold Contacts.sort_contacts, open_read, open_write, bind, lift, log. simpl.
    rewrite Hin, Hload, (sorted_contacts_named contacts Hnamed). cbn [fs trace].
    destruct (fs w !! output) as [[c|]|]; try done; by rewrite <- app_assoc.
  - apply (sorted_by_perm Contacts.names Contacts.key_lt).
  - apply (sorted_by_sorted Contacts.names Contacts.key_lt key_lt_asym key_le_trans).
  - intros k. apply (sorted_by_stable Contacts.names Contacts.key_lt key_lt_irrefl).
Qed.

Lemma sort_contacts_sorts_witness :
  exists sorted,
    Contacts.sort_contacts MoreExamples.load MoreExamples.dump
      "contacts.json" "sorted.json" MoreExamples.contacts_world
    = (Ok tt, mkWorld (<["sorted.json" := File (MoreExamples.dump sorted)]>
                         (fs MoreExamples.contacts_world))
                (trace MoreExamples.contacts_world
                 ++ [Open "contacts.json" "r"; Open "sorted.json" "w"]))
    /\ sorted ≡ₚ [MoreExamples.ann; MoreExamples.bob; MoreExamples.ann2].
Proof.
  destruct (sort_contacts_sorts MoreExamples.load MoreExamples.dump
              "contacts.json" "sorted.json" "three contacts"
              [MoreExamples.ann; MoreExamples.bob; MoreExamples.ann2]
              MoreExamples.contacts_world)
    as (sorted & Hrun & Hperm & _).
  - vm_compute; reflexivity.
  - reflexivity.
  - repeat constructor; by eexists.
  - vm_compute. discriminate.
  - by exists sorted.
Defined.

(** X25: when [sort_contacts] raises, no file has changed.  The first
    contact of the file that lacks a name decides which [KeyError] it is:
    with every contact before it having both names, a contact without a
    last name raises the error for [last_name], and a contact with a last
    name and without a first name the error for [first_name], whatever
    the contacts after it hold; the input has been read then and the
    output is not opened. *)
Theorem sort_contacts_failure
    (json_load : string -> Res (list Contacts.Contact))
    (json_dump : list Contacts.Contact -> string)
    (input output : string) (w : World) :
  (forall e, fst (Contacts.sort_contacts json_load json_dump input output w) = Raise e ->
     fs (snd (Contacts.sort_contacts json_load json_dump input output w)) = fs w)
  /\ (forall content pre x post,
        fs w !! input = Some (File content) ->
        json_load content = Ok (pre ++ x :: post) ->
        Forall (fun y => is_Some (Contacts.lookup "last_name" y)
                         /\ is_Some (Contacts.lookup "first_name" y)) pre ->
        (Contacts.lookup "last_name" x = None ->
           Contacts.sort_contacts json_load json_dump input output w
           = (Raise (Exn KeyError (repr "last_name")),
              mkWorld (fs w) (trace w ++ [Open input "r"])))
        /\ (is_Some (Contacts.lookup "last_name" x) ->
            Contacts.lookup "first_name" x = None ->
            Contacts.sort_contacts json_load json_dump input output w
            = (Raise (Exn KeyError (repr "first_name")),
               mkWorld (fs w) (trace w ++ [Open input "r"])))).
Proof.
  split.
  - intros e. unfold Contacts.sort_contacts, open_read, open_write, bind, lift, log. simpl.
    destruct (fs w !! input) as [[content|]|]; simpl; try done.
    destruct (json_load content) as [contacts|e1]; simpl; try done.
    destruct (Contacts.sorted_contacts contacts) as [sorted|e2]; simpl; try done.
    cbn [fs trace]. by destruct (fs w !! output) as [[c|]|].
  - intros content pre x post Hin Hload Hpre.
    assert (Hraise : forall e, Contacts.sort_key x = Raise e ->
              Contacts.sort_contacts json_load json_dump input output w
              = (Raise e, mkWorld (fs w) (trace w ++ [Open input "r"]))).
    { intros e He.
      unfold Contacts.sort_contacts, open_read, open_write, bind, lift, log. simpl.
      rewrite Hin, Hload. unfold Contacts.sorted_contacts.
      by rewrite (decorate_first_raise pre post x e Hpre He). }
    split.
    + intros Hlast. by apply Hraise, sort_key_no_last_name.
    + intros Hlast Hfirst. by apply Hraise, sort_key_no_first_name.
Qed.

Lemma sort_contacts_failure_witness :
  Contacts.sort_contacts MoreExamples.load MoreExamples.dump
    "broken.json" "sorted.json" MoreExamples.contacts_world
  = (Raise (Exn KeyError (repr "first_name")),
     mkWorld (fs MoreExamples.contacts_world)
       (trace MoreExamples.contacts_world ++ [Open "broken.json" "r"])).
Proof.
  destruct (sort_contacts_failure MoreExamples.load MoreExamples.dump
              "broken.json" "sorted.json" MoreExamples.contacts_world) as [_ H].
  destruct (H "one without a first name" [MoreExamples.ann] MoreExamples.nameless [])
    as [_ Hfirst].
  - vm_compute; reflexivity.
  - reflexivity.
  - repeat constructor; eexists; reflexivity.
  - apply Hfirst; [eexists |]; reflexivity.
Defined.

(** ** [extract_recent_logs] *)

Section LogsFacts.

Import Logs.

Lemma strongly_sorted_app {A : Type} (R : A -> A -> Prop) (l1 l2 : list A) (a b : A) :
  StronglySorted R (l1 ++ l2) -> a ∈ l1 -> b ∈ l2 -> R a b.
Proof.
  induction l1 as [| x l1 IH]; intros Hs Ha Hb; [by apply elem_of_nil in Ha |].
  simpl in Hs. apply StronglySorted_inv in Hs as [Hs Hx].
  apply elem_of_cons in Ha as [-> | Ha]; [| by apply IH].
  rewrite Forall_forall in Hx. apply Hx, elem_of_app. by right.
Qed.

Lemma read_all_files (files : gmap string node) (paths contents : list string)
    (tr : list event) :
  Forall2 (fun p c => files !! p = Some (File c)) paths contents ->
  read_all paths (mkWorld files tr)
  = (Ok contents, mkWorld files (tr ++ map (fun p => Open p "r") paths)).
Proof.
  intros H. revert tr. induction H as [| p c ps cs Hp Hps IH]; intros tr; simpl.
  - unfold ret. by rewrite app_nil_r.
  - unfold bind at 1. unfold open_read, bind, log. cbn [fs trace]. rewrite Hp.
    rewrite IH. unfold ret. by rewrite <- app_assoc.
Qed.

Lemma match_nonempty {A X : Type} (l : list A) (a b : X) :
  l <> [] -> match l with [] => a | _ :: _ => b end = b.
Proof. by destruct l. Qed.

(** The sorted list of [recent_files], before it is cut. *)
Lemma newest_first (getmtime : string -> Z) (log_files : list string) :
  let sorted := sorted_by (fun a b : string * Z => b.2 <? a.2)
                  (map (fun f => (f, getmtime f)) log_files) in
  map fst sorted ≡ₚ log_files
  /\ Forall (fun p => p.2 = getmtime p.1) sorted
  /\ StronglySorted (fun a b : string * Z => b.2 <= a.2) sorted.
Proof.
  intros sorted.
  assert (Hperm : sorted ≡ₚ map (fun f => (f, getmtime f)) log_files).
  { apply (sorted_by_perm snd (fun x y : Z => y <? x)). }
  split; [| split].
  - rewrite Hperm, map_map. simpl. by rewrite map_id.
  - rewrite Hperm. apply Forall_forall. intros p Hp.
    apply list_elem_of_In, in_map_iff in Hp as (f & <- & _). done.
  - assert (Hs : StronglySorted (fun a b : string * Z => (a.2 <? b.2) = false) sorted).
    { apply (sorted_by_sorted snd (fun x y : Z => y <? x)); intros; lia. }
    clearbody sorted. clear Hperm.
    induction Hs as [| a l Hl IH Ha]; constructor; [done |].
    eapply Forall_impl; [exact Ha |]. simpl. intros b Hb. lia.
Qed.

(** Files of one modification time keep the order of the glob. *)
Lemma newest_first_stable (getmtime : string -> Z) (log_files : list string) (t : Z) :
  filter (fun f => getmtime f = t)
    (map fst (sorted_by (fun a b : string * Z => b.2 <? a.2)
                (map (fun f => (f, getmtime f)) log_files)))
  = filter (fun f => getmtime f = t) log_files.
Proof.
  assert (Hfst : forall l : list (string * Z),
            Forall (fun p => p.2 = getmtime p.1) l ->
            filter (fun f => getmtime f = t) (map fst l)
            = map fst (filter (fun p : string * Z => p.2 = t) l)).
  { induction 1 as [| p l Hp Hl IH]; [done |]. cbn [map].
    rewrite !filter_cons, IH.
    destruct (decide (getmtime p.1 = t)) as [H1|H1], (decide (p.2 = t)) as [H2|H2];
      try done; congruence. }
  destruct (newest_first getmtime log_files) as (_ & Hmtime & _).
  rewrite (Hfst _ Hmtime).
  rewrite (sorted_by_stable snd (fun x y : Z => y <? x) Z.ltb_irrefl t).
  rewrite <- Hfst.
  - rewrite map_map. simpl. by rewrite map_id.
  - apply Forall_forall. intros p Hp.
    apply list_elem_of_In, in_map_iff in Hp as (f & <- & _). done.
Qed.

Lemma strongly_sorted_take {A : Type} (R : A -> A -> Prop) (n : nat) (l : list A) :
  StronglySorted R l -> StronglySorted R (take n l).
Proof.
  intros H. revert n. induction H as [| a l Hl IH Ha]; intros [| n]; simpl;
    try constructor; [apply IH |].
  apply Forall_forall. intros b Hb. rewrite Forall_forall in Ha.
  apply Ha. by apply elem_of_take in Hb as (i & Hb & _); eapply list_elem_of_lookup_2.
Qed.

Lemma strongly_sorted_paths (getmtime : string -> Z) (l : list (string * Z)) :
  Forall (fun p => p.2 = getmtime p.1) l ->
  StronglySorted (fun a b : string * Z => b.2 <= a.2) l ->
  StronglySorted (fun a b => getmtime b <= getmtime a) (map fst l).
Proof.
  intros Hm Hs. induction Hs as [| a l Hl IH Ha]; simpl; [constructor |].
  apply Forall_cons in Hm as [Hma Hml]. constructor; [by apply IH |].
  rewrite Forall_forall in Ha, Hml. apply Forall_forall. intros f Hf.
  apply list_elem_of_In, in_map_iff in Hf as (p & <- & Hp). apply list_elem_of_In in Hp.
  rewrite <- (Hml p Hp), <- Hma. by apply Ha.
Qed.

End LogsFacts.

(** X26: [extract_recent_logs].  With no [*.log] file in the directory
    it raises the [ValueError] naming the directory and touches nothing.
    Otherwise the files it reads are three of the files found, or all of
    them when there are fewer; they are in order of modification time,
    the newest first, files of one modification time in the order the
    glob gave them and the first of these first; no file left out is
    newer than a file read; and when those files can be read and the
    output path is no directory, the output is their contents in that
    order, joined by a line of three dashes, and no other file changes. *)
Theorem extract_recent_logs_newest
    (glob : string -> list string) (getmtime : string -> Z)
    (log_dir output : string) (w : World) :
  let log_files := glob (posixpath.join log_dir "*.log") in
  let chosen := map fst (Logs.recent_files getmtime log_files) in
  (log_files = [] ->
   Logs.extract_recent_logs glob getmtime log_dir output w
   = (Raise (Exn ValueError ("No log files found in " +:+ log_dir)), w))
  /\ length chosen = min 3 (length log_files)
  /\ StronglySorted (fun a b => getmtime b <= getmtime a) chosen
  /\ (forall t, exists later,
        filter (fun f => getmtime f = t) log_files
        = filter (fun f => getmtime f = t) chosen ++ later)
  /\ (exists rest,
        chosen ++ rest ≡ₚ log_files
        /\ forall c r, c ∈ chosen -> r ∈ rest -> getmtime r <= getmtime c)
  /\ (forall contents,
        log_files <> [] ->
        Forall2 (fun p c => fs w !! p = Some (File c)) chosen contents ->
        fs w !! output <> Some Directory ->
        Logs.extract_recent_logs glob getmtime log_dir output w
        = (Ok tt,
           mkWorld
             (<[output := File (str_join (String "010" ("---" +:+ String "010" ""))
                                  contents)]> (fs w))
             (trace w ++ map (fun p => Open p "r") chosen ++ [Open output "w"]))).
Proof.
  intros log_files chosen.
  destruct (newest_first getmtime log_files) as (Hperm & Hmtime & Hsorted).
  pose proof (newest_first_stable getmtime log_files) as Hstable.
  set (sorted := sorted_by (fun a b : string * Z => b.2 <? a.2)
                   (map (fun f => (f, getmtime f)) log_files)) in *.
  split; [| split; [| split; [| split; [| split]]]].
  - intros Hnone. unfold Logs.extract_recent_logs. fold log_files. by rewrite Hnone.
  - unfold chosen, Logs.recent_files. fold sorted.
    rewrite length_map, length_take. f_equal.
    by rewrite <- (length_map fst sorted), Hperm.
  - unfold chosen, Logs.recent_files. fold sorted.
    apply strongly_sorted_paths.
    + rewrite <- (take_drop 3 sorted) in Hmtime. by apply Forall_app in Hmtime as [H _].
    + by apply strongly_sorted_take.
  - intros t. exists (filter (fun f => getmtime f = t) (map fst (drop 3 sorted))).
    unfold chosen, Logs.recent_files. fold sorted.
    by rewrite <- filter_app, <- map_app, take_drop, Hstable.
  - exists (map fst (drop 3 sorted)). unfold chosen, Logs.recent_files. fold sorted. split.
    + by rewrite <- map_app, take_drop.
    + intros c r Hc Hr.
      apply list_elem_of_In, in_map_iff in Hc as (pc & <- & Hpc).
      apply list_elem_of_In, in_map_iff in Hr as (pr & <- & Hpr).
      apply list_elem_of_In in Hpc, Hpr.
      rewrite <- (take_drop 3 sorted) in Hsorted.
      pose proof (strongly_sorted_app _ _ _ _ _ Hsorted Hpc Hpr) as Hle. simpl in Hle.
      rewrite Forall_forall in Hmtime.
      rewrite <- (Hmtime pc), <- (Hmtime pr); [done | |].
      * rewrite <- (take_drop 3 sorted). apply elem_of_app. by right.
      * rewrite <- (take_drop 3 sorted). apply elem_of_app. by left.
  - intros contents Hsome Hread Hout.
    unfold Logs.extract_recent_logs. cbv zeta.
    rewrite (match_nonempty _ _ _ Hsome). fold log_files. fold chosen.
    unfold bind. destruct w as [files tr]. cbn [fs trace] in *.
    rewrite (read_all_files files chosen contents tr Hread).
    unfold open_write, bind, log. cbn [fs trace].
    destruct (files !! output) as [[c|]|]; try done; by rewrite <- !app_assoc.
Qed.

Lemma extract_recent_logs_newest_witness :
  Logs.extract_recent_logs MoreExamples.logs_glob MoreExamples.logs_mtime
    "/logs" "recent.txt" MoreExamples.logs_world
  = (Ok tt,
     mkWorld
       (<["recent.txt" := File (str_join (String "010" ("---" +:+ String "010" ""))
                                  ["B"; "C"; "D"])]> (fs MoreExamples.logs_world))
       (trace MoreExamples.logs_world
        ++ map (fun p => Open p "r") ["/logs/b.log"; "/logs/c.log"; "/logs/d.log"]
        ++ [Open "recent.txt" "w"])).
Proof.
  destruct (extract_recent_logs_newest MoreExamples.logs_glob MoreExamples.logs_mtime
              "/logs" "recent.txt" MoreExamples.logs_world) as (_ & _ & _ & _ & _ & Hrun).
  apply (Hrun ["B"; "C"; "D"]).
  - discriminate.
  - repeat constructor.
  - vm_compute. discriminate.
Defined.

(** ** [format_markdown] *)

Section MarkdownFacts.

Import re Markdown.

(** Characters still to be passed over are dropped. *)
Lemma sub_from_skip (items : list item) (repl : list (list ascii) -> list ascii)
    (bol : bool) (prev : option ascii) (skip : nat) (s : list ascii) :
  (length s <= skip)%nat -> sub_from items repl bol prev skip s = [].
Proof.
  revert prev skip. induction s as [| x s IH]; intros prev skip H; [done |].
  simpl in H. destruct skip as [| k]; [lia |]. simpl. apply IH. lia.
Qed.

(** Without a hash the heading pattern matches nowhere. *)
Lemma heading_no_hash (prev : option ascii) (s : list ascii) :
  ~ In "#"%char s -> sub_from heading heading_repl false prev 0 s = s.
Proof.
  revert prev. induction s as [| x s IH]; intros prev H; [done |].
  cbn [sub_from negb orb heading match_items].
  destruct (Ascii.eqb_spec x "#") as [-> | Hx]; [destruct H; by left |].
  rewrite IH; [done |]. intros Hin. apply H. by right.
Qed.

(** Without a bullet at the start of a line the list pattern matches
    nowhere. *)
Lemma list_item_no_bullet (prev : option ascii) (s : list ascii) :
  (forall pre c post,
     s = pre ++ c :: post ->
     match last pre with
     | Some x => x = "010"%char
     | None => prev = None \/ prev = Some "010"%char
     end ->
     bullet c = false) ->
  sub_from list_item list_item_repl true prev 0 s = s.
Proof.
  revert prev. induction s as [| x s IH]; intros prev H; [done |].
  cbn [sub_from negb orb list_item match_items].
  assert (Hrest : sub_from list_item list_item_repl true (Some x) 0 s = s).
  { apply IH. intros pre c post -> Hlast.
    apply (H (x :: pre) c post); [done |].
    rewrite last_cons. destruct (last pre) as [l|]; [done |].
    destruct Hlast as [Hl | Hl]; congruence. }
  destruct (match prev with None => true | Some c => Ascii.eqb c "010" end) eqn:Hbol;
    [| by rewrite Hrest].
  rewrite (H [] x s); [by rewrite Hrest | done |]. simpl.
  destruct prev as [c|]; [| by left]. right.
  by apply Ascii.eqb_eq in Hbol as ->.
Qed.

(** The longest way a repetition can match comes first. *)
Lemma runs_longest (p : ascii -> bool) (l r : list ascii) :
  Forall (fun c => p c = true) l ->
  match r with [] => True | x :: _ => p x = false end ->
  exists others, runs p (l ++ r) = (l, r) :: others.
Proof.
  intros Hl Hr. induction Hl as [| x l Hx Hl IH]; simpl.
  - destruct r as [| y r]; [by exists [] |]. simpl. rewrite Hr. by exists [].
  - rewrite Hx. destruct IH as [others ->]. simpl. by eexists.
Qed.

(** The heading pattern on a hash, white space and one line of text that
    starts with something else. *)
Lemma heading_match (ws t : list ascii) (c : ascii) :
  Forall (fun x => str.isspace x = true) ws ->
  str.isspace c = false ->
  ~ In "010"%char (c :: t) ->
  match_items heading ("#"%char :: ws ++ c :: t) = Some ([c :: t], []).
Proof.
  intros Hws Hc Hnl. cbn [heading match_items]. simpl Ascii.eqb. cbv iota.
  destruct (runs_longest str.isspace ws (c :: t) Hws Hc) as [o1 ->].
  cbn [datetime.first_some snd].
  assert (Hline : Forall (fun x => other_than "010" x = true) (c :: t)).
  { apply Forall_forall. intros x Hx. unfold other_than.
    destruct (Ascii.eqb_spec x "010") as [-> | Hne]; [| done].
    destruct Hnl. by apply list_elem_of_In. }
  destruct (runs_longest (other_than "010") (c :: t) [] Hline I) as [o2 Ho2].
  rewrite app_nil_r in Ho2. rewrite Ho2. reflexivity.
Qed.

End MarkdownFacts.

(** X27: [format_markdown] copies a text with no hash, and no [-], [+]
    or [*] first in the text or right after a line feed, to the output
    file as it is. *)
Theorem format_markdown_plain (input output content : string) (w : World) :
  fs w !! input = Some (File content) ->
  fs w !! output <> Some Directory ->
  ~ In "#"%char (list_ascii_of_string content) ->
  (forall pre c post,
     list_ascii_of_string content = pre ++ c :: post ->
     pre = [] \/ last pre = Some "010"%char ->
     Markdown.bullet c = false) ->
  Markdown.format_markdown input output w
  = (Ok tt, mkWorld (<[output := File content]> (fs w))
              (trace w ++ [Open input "r"; Open output "w"])).
Proof.
  intros Hin Hout Hhash Hbullet.
  unfold Markdown.format_markdown, open_read, open_write, bind, log. cbn [fs trace].
  rewrite Hin. cbn [fs trace]. unfold re.sub.
  rewrite (heading_no_hash None _ Hhash), string_of_list_ascii_of_string.
  rewrite list_item_no_bullet, string_of_list_ascii_of_string.
  - destruct (fs w !! output) as [[c|]|]; try done; by rewrite <- app_assoc.
  - intros pre c post Heq Hlast. apply (Hbullet pre c post Heq).
    destruct pre as [| y pre]; [by left | right].
    destruct (last (y :: pre)) as [l|] eqn:Hl; [by subst |].
    by apply last_None in Hl.
Qed.

Lemma format_markdown_plain_witness :
  Markdown.format_markdown "notes.md" "out.md" MoreExamples.markdown_world
  = (Ok tt,
     mkWorld (<["out.md" := File MoreExamples.notes]> (fs MoreExamples.markdown_world))
       (trace MoreExamples.markdown_world ++ [Open "notes.md" "r"; Open "out.md" "w"])).
Proof.
  apply (format_markdown_plain "notes.md" "out.md" MoreExamples.notes
           MoreExamples.markdown_world).
  - vm_compute; reflexivity.
  - vm_compute. discriminate.
  - vm_compute. intros H. repeat (destruct H as [H | H]; [discriminate |]). done.
  - intros pre c post Heq Hpre.
    destruct pre as [| p1 [| p2 [| p3 [| p4 [| p5 [| p6 [| p7 [| p8 [| p9 pre]]]]]]]]];
      simpl in Heq; simplify_eq; try reflexivity;
      try (destruct Hpre as [Hpre | Hpre]; discriminate Hpre).
    destruct pre; discriminate.
Defined.

(** The two substitutions on one heading line. *)
Lemma heading_line (ws t : list ascii) (c : ascii) :
  Forall (fun x => str.isspace x = true) ws ->
  str.isspace c = false ->
  ~ In "010"%char (c :: t) ->
  re.sub Markdown.list_item Markdown.list_item_repl true
    (re.sub Markdown.heading Markdown.heading_repl false
       (string_of_list_ascii ("#"%char :: ws ++ c :: t)))
  = "# " +:+ string_of_list_ascii (c :: t).
Proof.
  intros Hws Hc Hnl. unfold re.sub at 2.
  rewrite list_ascii_of_string_of_list_ascii.
  cbn [re.sub_from negb orb]. rewrite (heading_match ws t c Hws Hc Hnl).
  rewrite sub_from_skip by (simpl; lia). rewrite app_nil_r.
  unfold re.sub, Markdown.heading_repl. cbn [nth].
  rewrite list_ascii_of_string_of_list_ascii.
  rewrite list_item_no_bullet; [reflexivity |].
  intros pre x post Heq Hlast.
  destruct pre as [| p1 pre]; simpl in Heq; [by simplify_eq |].
  destruct (last (p1 :: pre)) as [l|] eqn:Hl; [| by apply last_None in Hl].
  subst l. apply last_Some in Hl as [pre' Hpre'].
  change (p1 :: pre ++ x :: post) with ((p1 :: pre) ++ x :: post) in Heq.
  rewrite Hpre' in Heq. destruct Hnl.
  assert (Hin' : In "010"%char ("#"%char :: " "%char :: c :: t)).
  { rewrite Heq. rewrite <- app_assoc. apply in_or_app. right. by left. }
  destruct Hin' as [H | [H | H]]; [discriminate | discriminate | done].
Qed.

(** X28: a file that holds one heading line, a hash followed by any
    amount of white space and then text that starts with an ASCII
    character other than white space, comes out as the hash, exactly one
    space and the text; the text is taken as it is, a further hash at its
    start included. *)
Theorem format_markdown_heading
    (input output : string) (ws t : list ascii) (c : ascii) (w : World) :
  fs w !! input
    = Some (File (string_of_list_ascii ("#"%char :: ws ++ c :: t))) ->
  fs w !! output <> Some Directory ->
  Forall (fun x => str.isspace x = true) ws ->
  (str.code c < 128)%N ->
  str.isspace c = false ->
  ~ In "010"%char (c :: t) ->
  Markdown.format_markdown input output w
  = (Ok tt,
     mkWorld (<[output := File ("# " +:+ string_of_list_ascii (c :: t))]> (fs w))
       (trace w ++ [Open input "r"; Open output "w"])).
Proof.
  intros Hin Hout Hws _ Hc Hnl.
  unfold Markdown.format_markdown, open_read, open_write, bind, log. cbn [fs trace].
  rewrite Hin. cbn [fs trace]. rewrite (heading_line ws t c Hws Hc Hnl).
  destruct (fs w !! output) as [[x|]|]; try done; by rewrite <- app_assoc.
Qed.

Lemma format_markdown_heading_witness :
  Markdown.format_markdown "title.md" "out.md" MoreExamples.markdown_world
  = (Ok tt,
     mkWorld (<["out.md" := File "# #   Title"]> (fs MoreExamples.markdown_world))
       (trace MoreExamples.markdown_world ++ [Open "title.md" "r"; Open "out.md" "w"])).
Proof.
  apply (format_markdown_heading "title.md" "out.md" []
           (list_ascii_of_string "   Title") "#" MoreExamples.markdown_world).
  - vm_compute; reflexivity.
  - vm_compute. discriminate.
  - constructor.
  - reflexivity.
  - reflexivity.
  - vm_compute. intros H. repeat (destruct H as [H | H]; [discriminate |]). done.
Defined.

(** ** [extract_email_sender] *)

Section EmailFacts.

Import re.

Lemma first_some_inv {A B : Type} (f : A -> option B) (l : list A) (y : B) :
  datetime.first_some f l = Some y -> exists x, In x l /\ f x = Some y.
Proof.
  induction l as [| x l IH]; [done |]. simpl.
  destruct (f x) as [y'|] eqn:Hx.
  - intros [= <-]. exists x. by split; [left |].
  - intros H. destruct (IH H) as (x' & Hin & Hx'). exists x'. by split; [right |].
Qed.

(** What a repetition takes is a prefix made of the class. *)
Lemma runs_spec (p : ascii -> bool) (s taken rest : list ascii) :
  In (taken, rest) (runs p s) -> s = taken ++ rest /\ Forall (fun c => p c = true) taken.
Proof.
  revert taken rest. induction s as [| x s IH]; intros taken rest; simpl.
  - intros [[= <- <-] | []]. by split.
  - destruct (p x) eqn:Hx.
    + intros H. apply in_app_or in H as [H | [[= <- <-] | []]]; [| by split].
      apply in_map_iff in H as ([taken' rest'] & [= <- <-] & H).
      destruct (IH _ _ H) as [-> Hall]. split; [done | by constructor].
    + intros [[= <- <-] | []]. by split.
Qed.

Lemma match_lit_inv (c : ascii) (items : list item) (s : list ascii)
    (r : list (list ascii) * list ascii) :
  match_items (Lit c :: items) s = Some r ->
  exists s', s = c :: s' /\ match_items items s' = Some r.
Proof.
  simpl. destruct s as [| x s']; [done |].
  destruct (Ascii.eqb_spec x c) as [-> | Hne]; [| done]. intros H. by exists s'.
Qed.

Lemma match_group_inv (p : ascii -> bool) (items : list item) (s : list ascii)
    (groups : list (list ascii)) (rest : list ascii) :
  match_items (PlusGroup p :: items) s = Some (groups, rest) ->
  exists taken s' groups',
    s = taken ++ s' /\ taken <> [] /\ Forall (fun c => p c = true) taken
    /\ groups = taken :: groups' /\ match_items items s' = Some (groups', rest).
Proof.
  simpl. intros H. apply first_some_inv in H as ([taken s'] & Hin & H).
  apply filter_In in Hin as [Hin Hne]. simpl in H.
  destruct (match_items items s') as [[groups' rest']|] eqn:Hm; [| done].
  injection H as <- <-.
  destruct (runs_spec p s taken s' Hin) as [-> Hall].
  exists taken, s', groups'. repeat split; try done. by destruct taken.
Qed.

Lemma search_inv (items : list item) (s : list ascii)
    (r : list (list ascii) * list ascii) :
  search items s = Some r -> exists pre s', s = pre ++ s' /\ match_items items s' = Some r.
Proof.
  induction s as [| x s IH]; simpl.
  - destruct (match_items items []) eqn:Hm; [| done]. intros [= <-]. by exists [], [].
  - destruct (match_items items (x :: s)) eqn:Hm.
    + intros [= <-]. by exists [], (x :: s).
    + intros H. destruct (IH H) as (pre & s' & -> & Hs'). by exists (x :: pre), s'.
Qed.

Lemma other_than_all (c : ascii) (l : list ascii) :
  Forall (fun x => other_than c x = true) l -> ~ In c l.
Proof.
  intros H Hin. rewrite Forall_forall in H.
  specialize (H c (proj2 (list_elem_of_In _ _) Hin)).
  unfold other_than in H. by rewrite Ascii.eqb_refl in H.
Qed.

(** What the sender pattern matches. *)
Lemma sender_inv (s : list ascii) (groups : list (list ascii)) (rest : list ascii) :
  match_items Email.sender s = Some (groups, rest) ->
  exists name email,
    groups = [name; email]
    /\ s = list_ascii_of_string "From: "
           ++ Email.quote :: name ++ Email.quote :: " "%char :: "<"%char :: email
           ++ ">"%char :: rest
    /\ name <> [] /\ email <> []
    /\ ~ In Email.quote name /\ ~ In ">"%char email.
Proof.
  unfold Email.sender, literal. cbn [list_ascii_of_string map app]. intros H.
  repeat (apply match_lit_inv in H as (? & -> & H)).
  apply match_group_inv in H as (name & s1 & g1 & -> & Hname & Hq & -> & H).
  repeat (apply match_lit_inv in H as (? & -> & H)).
  apply match_group_inv in H as (email & s2 & g2 & -> & Hemail & Hgt & -> & H).
  apply match_lit_inv in H as (s3 & -> & H). simpl in H. injection H as <- <-.
  exists name, email. repeat split; try done; by apply other_than_all.
Qed.

(** Without a capital F there is no sender line. *)
Lemma search_no_F (s : list ascii) : ~ In "F"%char s -> search Email.sender s = None.
Proof.
  induction s as [| x s IH]; intros H; [done |].
  cbn [search]. unfold Email.sender at 1, literal.
  cbn [list_ascii_of_string map app match_items].
  destruct (Ascii.eqb_spec x "F") as [-> | Hne]; [destruct H; by left |].
  apply IH. intros Hin. apply H. by right.
Qed.

End EmailFacts.

(** X29: on a readable file and an output path that is no directory,
    [extract_email_sender] either raises the [ValueError] about the
    sender, having written nothing, or writes the encoding of a name and
    an address that stand in the file as [From:], a space, the name in
    quotes, a space and the address in angle brackets; the name is not
    empty and holds no quote, the address is not empty and holds no
    closing bracket.  A file without a capital F is of the first kind. *)
Theorem extract_email_sender_sound
    (json_dump : string -> string -> string)
    (input output content : string) (w : World) :
  fs w !! input = Some (File content) ->
  fs w !! output <> Some Directory ->
  ((Email.extract_email_sender json_dump input output w
    = (Raise (Exn ValueError "Could not find sender information"),
       mkWorld (fs w) (trace w ++ [Open input "r"])))
   \/ (exists name email pre post,
         list_ascii_of_string content
         = pre ++ list_ascii_of_string "From: "
               ++ Email.quote :: name ++ Email.quote :: " "%char :: "<"%char :: email
               ++ ">"%char :: post
         /\ name <> [] /\ email <> []
         /\ ~ In Email.quote name /\ ~ In ">"%char email
         /\ Email.extract_email_sender json_dump input output w
            = (Ok tt,
               mkWorld
                 (<[output := File (json_dump (string_of_list_ascii name)
                                      (string_of_list_ascii email))]> (fs w))
                 (trace w ++ [Open input "r"; Open output "w"]))))
  /\ (~ In "F"%char (list_ascii_of_string content) ->
      Email.extract_email_sender json_dump input output w
      = (Raise (Exn ValueError "Could not find sender information"),
         mkWorld (fs w) (trace w ++ [Open input "r"]))).
Proof.
  intros Hin Hout.
  unfold Email.extract_email_sender, open_read, open_write, bind, log, raise.
  cbn [fs trace]. rewrite Hin. cbn [fs trace].
  split.
  - destruct (re.search Email.sender (list_ascii_of_string content))
      as [[groups rest]|] eqn:Hsearch; [| by left].
    apply search_inv in Hsearch as (pre & s' & Hcontent & Hmatch).
    apply sender_inv in Hmatch as (name & email & -> & -> & Hn & He & Hq & Hgt).
    right. exists name, email, pre, rest. repeat split; try done.
    cbn [fs trace].
    destruct (fs w !! output) as [[c|]|]; try done; by rewrite <- app_assoc.
  - intros HF. by rewrite (search_no_F _ HF).
Qed.

Lemma extract_email_sender_sound_witness :
  Email.extract_email_sender MoreExamples.dump_sender "empty.txt" "sender.json"
    MoreExamples.mail_world
  = (Raise (Exn ValueError "Could not find sender information"),
     mkWorld (fs MoreExamples.mail_world)
       (trace MoreExamples.mail_world ++ [Open "empty.txt" "r"]))
  /\ exists name email,
       Email.extract_email_sender MoreExamples.dump_sender "mail.txt" "sender.json"
         MoreExamples.mail_world
       = (Ok tt,
          mkWorld
            (<["sender.json" := File (MoreExamples.dump_sender (string_of_list_ascii name)
                                        (string_of_list_ascii email))]>
               (fs MoreExamples.mail_world))
            (trace MoreExamples.mail_world ++ [Open "mail.txt" "r"; Open "sender.json" "w"])).
Proof.
  split.
  - destruct (extract_email_sender_sound MoreExamples.dump_sender "empty.txt"
                "sender.json" "" MoreExamples.mail_world) as [_ H].
    + vm_compute; reflexivity.
    + vm_compute. discriminate.
    + apply H. simpl. tauto.
  - destruct (extract_email_sender_sound MoreExamples.dump_sender "mail.txt"
                "sender.json" MoreExamples.mail MoreExamples.mail_world)
      as [[H | (name & email & _ & _ & _ & _ & _ & _ & _ & H)] _].
    + vm_compute; reflexivity.
    + vm_compute. discriminate.
    + apply (f_equal fst) in H. vm_compute in H. discriminate H.
    + by exists name, email.
Defined.
